(** * Weighted structural-pruning consensus: [strategy.py]

    A shallow embedding of [Struct_Prune_Aggregation] (a Flower [FedAvg]
    subclass) and the properties of its [aggregate_fit] callback.

    Conventions of the embedding.
    - Python exceptions are values of [exn]; a call that may raise returns
      a [result].
    - Python [int]s are [Z].
    - The loop has two arithmetic steps, the sum of the example counts and
      the threshold test.  The definitions of the strategy take them in
      exact arithmetic: [aggregate_frac] is held as a rational, 0.3 in
      [__init__].  [Machine] has the same loop with the arithmetic of
      NumPy: [np.sum] wraps around at 64 bits, the product and the
      comparison are those of binary64.  What depends on rounding or on
      overflow is stated on [Machine].
    - The framework ([flwr]), [numpy], [json] and the two modules of the
      repository that the file imports ([cifar_resnet], [prune]) are
      parameters of the development. *)

From Stdlib Require Import QArith Ascii SpecFloat.
From stdpp Require Import base option list strings gmap.
From Stdlib Require Import Permutation.
From stdpp Require Import sorting.

Local Open Scope Z_scope.

(** ** Exceptions *)

Inductive exn : Type :=
| KeyError (key : string)
| IndexError
| AttributeError.

Inductive result (A : Type) : Type :=
| Ok (a : A)
| Raise (e : exn).
Arguments Ok {A} a.
Arguments Raise {A} e.

#[global] Instance result_ret : MRet result := λ A a, Ok a.
#[global] Instance result_bind : MBind result := λ A B f m,
  match m with
  | Ok a => f a
  | Raise e => Raise e
  end.
(** ** Python built-ins used by the source *)

(** [d[k]] on a [dict]. *)
Definition dict_getitem {V} (d : gmap string V) (k : string) : result V :=
  match d !! k with
  | Some v => Ok v
  | None => Raise (KeyError k)
  end.

(** [l[i]] on a list, for [i >= 0]. *)
Definition list_getitem {A} (l : list A) (i : nat) : result A :=
  match l !! i with
  | Some a => Ok a
  | None => Raise IndexError
  end.

(** [l[-k]] on a list, for [k >= 1]. *)
Definition list_getitem_neg {A} (l : list A) (k : nat) : result A :=
  if decide (k ≤ length l)%nat then list_getitem l (length l - k) else Raise IndexError.

(** Truth value of a list: [if l:] / [if not l:]. *)
Definition truthy {A} (l : list A) : bool :=
  match l with [] => false | _ :: _ => true end.

(** [x in l] for a list of integers. *)
Definition py_in (x : Z) (l : list Z) : bool := bool_decide (x ∈ l).

(** [s.split('.')]. *)
Fixpoint split_dot (s : string) : list string :=
  match s with
  | EmptyString => [EmptyString]
  | String c rest =>
      if Ascii.eqb c "."%char then EmptyString :: split_dot rest
      else match split_dot rest with
           | [] => [String c EmptyString]
           | w :: ws => String c w :: ws
           end
  end.

(** [s[:-n]]: when [n] is 0 the slice is [s[:0]], the empty string. *)
Definition slice_to_neg (s : string) (n : nat) : string :=
  if decide (n = 0)%nat then EmptyString
  else String.substring 0 (String.length s - n) s.

(** [re.match("^conv[1-2]+$", s)]: [$] also matches before a final newline. *)
Definition is_1_or_2 (c : ascii) : bool :=
  Ascii.eqb c "1"%char || Ascii.eqb c "2"%char.

Fixpoint conv_tail (s : string) : bool :=
  match s with
  | EmptyString => true
  | String c rest =>
      if is_1_or_2 c then conv_tail rest
      else Ascii.eqb c (ascii_of_nat 10) && bool_decide (rest = EmptyString)
  end.

Definition re_match_conv (s : string) : bool :=
  match s with
  | String "c" (String "o" (String "n" (String "v" (String d rest)))) =>
      is_1_or_2 d && conv_tail rest
  | _ => false
  end.

(** [np.sum] of a list of integers. *)
Definition np_sum (l : list Z) : Z := foldr Z.add 0 l.

(** [enumerate(l)]. *)
Definition enumerate {A} (l : list A) : list (nat * A) := imap pair l.

(** ** Collaborators

    What [strategy.py] imports and calls but does not define. *)

Class Collaborators : Type := {
  (** [flwr.common.Parameters] and the arrays it serialises *)
  Parameters : Type;
  NDArray : Type;
  shape : NDArray → list nat;
  parameters_to_ndarrays : Parameters → list NDArray;
  (** [flwr.common.Scalar], and [json.loads(v.decode('utf-8'))] on the
      value of the ['prune_indices'] metric: a mapping from layer key to
      the channel indices the client proposes *)
  Scalar : Type;
  json_loads : Scalar → gmap string (list Z);
  (** clients, failures and the client manager *)
  ClientProxy : Type;
  Failure : Type;
  ClientManager : Type;
  num_available : ClientManager → Z;
  sample : ClientManager → Z → Z → list ClientProxy;
  (** [FedAvg.num_fit_clients] *)
  num_fit_clients : Z → Z * Z;
  (** [cifar_resnet.ResNet18], the keys of its [state_dict()] in order, and
      [prune.prune_model_with_indices], which works on the network in place
      and may raise *)
  Net : Type;
  ResNet18 : Z → Net;
  state_dict : Net → list string;
  prune_model_with_indices : Net → list (list nat) → result Net;
}.

Inductive level : Type := WARNING.
Definition LogRecord : Type := level * string.

Section Strategy.
Context `{Collaborators}.

(** ** Data *)

Record FitRes : Type := mkFitRes {
  parameters : Parameters;
  num_examples : Z;
  metrics : gmap string Scalar;
}.

Definition MetricsAggregationFn : Type :=
  list (Z * gmap string Scalar) → gmap string Scalar.

(** The attributes of [Struct_Prune_Aggregation] that the two callbacks
    read or write. *)
Record Struct_Prune_Aggregation : Type := mkStrategy {
  on_fit_config_fn : option (Z → gmap string Scalar);
  on_evaluate_config_fn : option (Z → gmap string Scalar);
  accept_failures : bool;
  fit_metrics_aggregation_fn : option MetricsAggregationFn;
  initial_parameters : option Parameters;
  central_parameters : option Parameters;
  aggregate_frac : Q;
  server_net : Net;
}.

(** [__init__]: the [FedAvg] defaults, then the four assignments. *)
Definition init (on_fit_config_fn on_evaluate_config_fn : option (Z → gmap string Scalar))
  : Struct_Prune_Aggregation :=
  {| on_fit_config_fn := on_fit_config_fn;
     on_evaluate_config_fn := on_evaluate_config_fn;
     accept_failures := true;
     fit_metrics_aggregation_fn := None;
     initial_parameters := None;
     central_parameters := None;
     aggregate_frac := 3 # 10;
     server_net := ResNet18 10 |}.

Definition set_central_parameters (self : Struct_Prune_Aggregation) (p : Parameters)
  : Struct_Prune_Aggregation :=
  {| on_fit_config_fn := on_fit_config_fn self;
     on_evaluate_config_fn := on_evaluate_config_fn self;
     accept_failures := accept_failures self;
     fit_metrics_aggregation_fn := fit_metrics_aggregation_fn self;
     initial_parameters := initial_parameters self;
     central_parameters := Some p;
     aggregate_frac := aggregate_frac self;
     server_net := server_net self |}.

Definition set_server_net (self : Struct_Prune_Aggregation) (net : Net)
  : Struct_Prune_Aggregation :=
  {| on_fit_config_fn := on_fit_config_fn self;
     on_evaluate_config_fn := on_evaluate_config_fn self;
     accept_failures := accept_failures self;
     fit_metrics_aggregation_fn := fit_metrics_aggregation_fn self;
     initial_parameters := initial_parameters self;
     central_parameters := central_parameters self;
     aggregate_frac := aggregate_frac self;
     server_net := net |}.

(** ** [configure_fit] *)

Definition configure_fit (self : Struct_Prune_Aggregation) (server_round : Z)
    (parameters : Parameters) (client_manager : ClientManager)
  : Struct_Prune_Aggregation * list (ClientProxy * (Parameters * gmap string Scalar)) :=
  let self := set_central_parameters self parameters in
  let config :=
    match on_fit_config_fn self with
    | Some f => f server_round
    | None => ∅
    end in
  let fit_ins := (parameters, config) in
  let '(sample_size, min_num_clients) := num_fit_clients (num_available client_manager) in
  let clients := sample client_manager sample_size min_num_clients in
  (self, (λ client, (client, fit_ins)) <$> clients).

(** ** [aggregate_fit] *)

(** The innermost loop, over [enumerate(client_metrics)]. *)
Fixpoint count_clients (key : string) (channel_idx : nat) (num_examples : list Z)
    (client_idx : nat) (client_metrics : list (gmap string (list Z)))
    (channel_cardinality : Z) : result Z :=
  match client_metrics with
  | [] => Ok channel_cardinality
  | client :: rest =>
      prune_ids ← dict_getitem client key;
      if py_in (Z.of_nat channel_idx) prune_ids then
        n ← list_getitem num_examples client_idx;
        count_clients key channel_idx num_examples (S client_idx) rest (channel_cardinality + n)
      else
        count_clients key channel_idx num_examples (S client_idx) rest channel_cardinality
  end.

(** The loop over [range(num_channels)], appending to [cardinalities]. *)
Fixpoint count_channels (key : string) (num_examples : list Z)
    (client_metrics : list (gmap string (list Z)))
    (channels : list nat) (cardinalities : list Z) : result (list Z) :=
  match channels with
  | [] => Ok cardinalities
  | channel_idx :: rest =>
      channel_cardinality ← count_clients key channel_idx num_examples 0 client_metrics 0;
      count_channels key num_examples client_metrics rest (cardinalities ++ [channel_cardinality])
  end.

(** [x >= self.aggregate_frac * tot_examples]. *)
Definition reaches_threshold (aggregate_frac : Q) (tot_examples : Z) (x : Z) : bool :=
  Qle_bool (aggregate_frac * inject_Z tot_examples) (inject_Z x).

(** [[channel_idx for channel_idx, x in enumerate(cardinalities) if x >= ...]]. *)
Definition select_channels (aggregate_frac : Q) (tot_examples : Z) (cardinalities : list Z)
  : list nat :=
  omap (λ '(channel_idx, x),
          if reaches_threshold aggregate_frac tot_examples x then Some channel_idx else None)
       (enumerate cardinalities).

(** The key under which clients file their proposal for the tensor named
    [key], when the tensor is prunable: [None] when it is not. *)
Definition proposal_key (key : string) : result (option string) :=
  let key_list := split_dot key in
  last ← list_getitem_neg key_list 1;
  let key := slice_to_neg key (String.length last) in
  name ← list_getitem_neg key_list 2;
  if re_match_conv name then Ok (Some (key +:+ "out")) else Ok None.

(** [server_parameters[index].shape[0]]. *)
Definition get_num_channels (server_parameters : list NDArray) (index : nat) : result nat :=
  param ← list_getitem server_parameters index;
  list_getitem (shape param) 0.

(** Lines 113 to 126: the tallies of one prunable layer and the channels
    that reach the threshold. *)
Definition layer_decision (aggregate_frac : Q) (tot_examples : Z) (key : string)
    (num_channels : nat) (client_metrics : list (gmap string (list Z)))
    (num_examples : list Z) : result (list nat) :=
  cardinalities ← count_channels key num_examples client_metrics (seq 0 num_channels) [];
  Ok (select_channels aggregate_frac tot_examples cardinalities).

(** The body of the loop over [enumerate(model_dict)]. *)
Definition layer_body (self : Struct_Prune_Aggregation) (server_parameters : list NDArray)
    (client_metrics : list (gmap string (list Z))) (num_examples : list Z) (tot_examples : Z)
    (index : nat) (key : string) (server_prune_ids : list (list nat))
  : result (list (list nat)) :=
  key ← proposal_key key;
  match key with
  | Some key =>
      num_channels ← get_num_channels server_parameters index;
      decision ← layer_decision (aggregate_frac self) tot_examples key num_channels
                                client_metrics num_examples;
      Ok (server_prune_ids ++ [decision])
  | None => Ok server_prune_ids
  end.

Fixpoint layer_loop (self : Struct_Prune_Aggregation) (server_parameters : list NDArray)
    (client_metrics : list (gmap string (list Z))) (num_examples : list Z) (tot_examples : Z)
    (index : nat) (model_dict : list string) (server_prune_ids : list (list nat))
  : result (list (list nat)) :=
  match model_dict with
  | [] => Ok server_prune_ids
  | key :: rest =>
      server_prune_ids ←
        layer_body self server_parameters client_metrics num_examples tot_examples
                   index key server_prune_ids;
      layer_loop self server_parameters client_metrics num_examples tot_examples
                 (S index) rest server_prune_ids
  end.

(** Lines 97 to 126: from the results to [server_prune_ids]. *)
Definition get_client_metrics (results : list (ClientProxy * FitRes))
  : result (list (gmap string (list Z))) :=
  mapM (λ '(_, res), v ← dict_getitem (metrics res) "prune_indices"; Ok (json_loads v)) results.

Definition get_num_examples (results : list (ClientProxy * FitRes)) : list Z :=
  (λ '(_, res), num_examples res) <$> results.

Definition compute_server_prune_ids (self : Struct_Prune_Aggregation)
    (server_parameters : list NDArray) (results : list (ClientProxy * FitRes))
  : result (list (list nat)) :=
  client_metrics ← get_client_metrics results;
  let num_examples := get_num_examples results in
  let model_dict := state_dict (server_net self) in
  let tot_examples := np_sum num_examples in
  layer_loop self server_parameters client_metrics num_examples tot_examples 0 model_dict [].

(** The prunable tensors of [model_dict], from position [index] on: the
    position of each and the key of its proposals. *)
Fixpoint prunable_layers (index : nat) (model_dict : list string) : list (nat * string) :=
  match model_dict with
  | [] => []
  | key :: rest =>
      match proposal_key key with
      | Ok (Some key) => (index, key) :: prunable_layers (S index) rest
      | _ => prunable_layers (S index) rest
      end
  end.

Definition missing_fn_warning : LogRecord :=
  (WARNING, "No fit_metrics_aggregation_fn provided"%string).

(** [aggregate_fit] returns the strategy after the call, the records it
    logged, and the pair the Python method returns. *)
Definition aggregate_fit (self : Struct_Prune_Aggregation) (server_round : Z)
    (results : list (ClientProxy * FitRes)) (failures : list Failure)
  : result (Struct_Prune_Aggregation * list LogRecord
            * (option (list NDArray) * gmap string Scalar)) :=
  if negb (truthy results) then Ok (self, [], (None, ∅))
  else if negb (accept_failures self) && truthy failures then Ok (self, [], (None, ∅))
  else
    let client_parameters := (λ '(_, fit_res), parameters_to_ndarrays (parameters fit_res)) <$> results in
    server_parameters ←
      match central_parameters self with
      | Some p => Ok (parameters_to_ndarrays p)
      | None => Raise AttributeError
      end;
    server_prune_ids ← compute_server_prune_ids self server_parameters results;
    net ← prune_model_with_indices (server_net self) server_prune_ids;
    let self := set_server_net self net in
    match fit_metrics_aggregation_fn self with
    | Some fn =>
        let fit_metrics := (λ '(_, res), (num_examples res, metrics res)) <$> results in
        Ok (self, [], (Some server_parameters, fn fit_metrics))
    | None =>
        if bool_decide (server_round = 1)
        then Ok (self, [missing_fn_warning], (Some server_parameters, ∅))
        else Ok (self, [], (Some server_parameters, ∅))
    end.

End Strategy.

(** ** The framework's round loop

    [flwr]'s server calls [configure_fit] and then [aggregate_fit] once per
    round, with [server_round] counting from the first round on.  What the
    server hands to each call (the parameters it holds, the client manager,
    the results and failures it collected) is the input of the round. *)

Section Rounds.
Context `{Collaborators}.

Record RoundInput : Type := mkRoundInput {
  round_parameters : Parameters;
  round_client_manager : ClientManager;
  round_results : list (ClientProxy * FitRes);
  round_failures : list Failure;
}.

Fixpoint fit_rounds (self : Struct_Prune_Aggregation) (server_round : Z)
    (rounds : list RoundInput)
  : result (Struct_Prune_Aggregation * list LogRecord
            * list (option (list NDArray) * gmap string Scalar)) :=
  match rounds with
  | [] => Ok (self, [], [])
  | r :: rest =>
      let '(self, _) :=
        configure_fit self server_round (round_parameters r) (round_client_manager r) in
      '(self, log1, out) ← aggregate_fit self server_round (round_results r) (round_failures r);
      '(self, log2, outs) ← fit_rounds self (server_round + 1) rest;
      Ok (self, log1 ++ log2, out :: outs)
  end.

(** Whether the call for a round gets past the two early returns. *)
Definition aggregates (self : Struct_Prune_Aggregation)
    (results : list (ClientProxy * FitRes)) (failures : list Failure) : bool :=
  truthy results && (accept_failures self || negb (truthy failures)).

End Rounds.

(** ** Reference definitions for the tally

    The weight a list of (proposal, weight) pairs gives to one channel of
    one layer, written as a sum: the loops of [aggregate_fit] are compared
    with it below. *)

Definition vote (key : string) (channel_idx : nat) (client : gmap string (list Z)) (n : Z) : Z :=
  match client !! key with
  | Some prune_ids => if py_in (Z.of_nat channel_idx) prune_ids then n else 0
  | None => 0
  end.

Definition tally_sum (key : string) (channel_idx : nat)
    (clients : list (gmap string (list Z) * Z)) : Z :=
  foldr (λ '(client, n) acc, vote key channel_idx client n + acc) 0 clients.

Definition all_have_key (key : string) (clients : list (gmap string (list Z))) : bool :=
  forallb (λ client, bool_decide (is_Some (client !! key))) clients.

Section Reference.
Context `{Collaborators}.

(** The proposal a result carries, and the (proposal, weight) pairs and the
    total weight of a list of results. *)
Definition proposal_of (res : FitRes) : gmap string (list Z) :=
  match metrics res !! "prune_indices"%string with
  | Some v => json_loads v
  | None => ∅
  end.

Definition clients_of (results : list (ClientProxy * FitRes))
  : list (gmap string (list Z) * Z) :=
  (λ '(_, res), (proposal_of res, num_examples res)) <$> results.

Definition total_weight (results : list (ClientProxy * FitRes)) : Z :=
  foldr (λ '(_, res) acc, num_examples res + acc) 0 results.

Definition has_metric (r : ClientProxy * FitRes) : bool :=
  bool_decide (is_Some (metrics r.2 !! "prune_indices"%string)).

(** What the loop has done for one prunable layer when it appended
    [decision]. *)
Definition decided (self : Struct_Prune_Aggregation) (server_parameters : list NDArray)
    (client_metrics : list (gmap string (list Z))) (num_examples : list Z) (tot_examples : Z)
    (layer : nat * string) (decision : list nat) : Prop :=
  ∃ num_channels,
    get_num_channels server_parameters layer.1 = Ok num_channels ∧
    layer_decision (aggregate_frac self) tot_examples layer.2 num_channels
                   client_metrics num_examples = Ok decision.

End Reference.

(** A proposal with the indices outside [0, num_channels) removed from the
    entry of [key]. *)
Definition in_range (num_channels : nat) (i : Z) : bool :=
  (0 <=? i) && (i <? Z.of_nat num_channels).

Definition drop_out_of_range (key : string) (num_channels : nat)
    (client : gmap string (list Z)) : gmap string (list Z) :=
  alter (List.filter (in_range num_channels)) key client.

(** ** A small instance

    A network of five tensors whose first convolution has eight output
    channels, and three clients of weights 10, 20 and 70. *)

Module Scenario.

#[local] Instance world : Collaborators := {|
  Parameters := list (list nat);
  NDArray := list nat;
  shape := id;
  parameters_to_ndarrays := id;
  Scalar := gmap string (list Z);
  json_loads := id;
  ClientProxy := nat;
  Failure := unit;
  ClientManager := list nat;
  num_available := λ cm, Z.of_nat (length cm);
  sample := λ cm _ _, cm;
  num_fit_clients := λ n, (n, 2);
  Net := list string;
  ResNet18 := λ _, ["conv1.weight"; "bn1.weight"; "bn1.bias"; "linear.weight"; "linear.bias"]%string;
  state_dict := id;
  prune_model_with_indices := λ net _, Ok net;
|}.

Definition global : list (list nat) :=
  [[8; 3; 3; 3]; [8]; [8]; [10; 8]; [10]]%nat.

Definition fit_res (n : Z) (prune_ids : list Z) : FitRes :=
  {| parameters := global; num_examples := n;
     metrics := {[ "prune_indices"%string := {[ "conv1.out"%string := prune_ids ]} ]} |}.

Definition client_A : nat * FitRes := (0%nat, fit_res 10 [5; 6]).
Definition client_B : nat * FitRes := (1%nat, fit_res 20 []).
Definition client_C : nat * FitRes := (2%nat, fit_res 70 [5]).

Definition strategy : Struct_Prune_Aggregation :=
  fst (configure_fit (init None None) 1 global [0; 1; 2]%nat).

(** A client that reports no ['prune_indices'] metric at all, one whose
    proposal has no entry for the layer, and one that lists a channel the
    layer does not have. *)
Definition client_no_metric : nat * FitRes :=
  (3%nat, {| parameters := global; num_examples := 5; metrics := ∅ |}).
Definition client_no_layer : nat * FitRes :=
  (4%nat, {| parameters := global; num_examples := 5;
             metrics := {[ "prune_indices"%string := ∅ ]} |}).
Definition client_out_of_range : nat * FitRes := (5%nat, fit_res 70 [5; 99; -1]).

(** The same strategy with [accept_failures] off. *)
Definition strict_strategy : Struct_Prune_Aggregation :=
  {| on_fit_config_fn := None;
     on_evaluate_config_fn := None;
     accept_failures := false;
     fit_metrics_aggregation_fn := None;
     initial_parameters := None;
     central_parameters := Some global;
     aggregate_frac := 3 # 10;
     server_net := ResNet18 10 |}.

(** Proposals with a tie: channel 6 is listed by the clients of weights 10
    and 20, which is 30 of 100. *)
Definition tie_proposals : list (gmap string (list Z)) :=
  [ {[ "conv1.out"%string := [5; 6] ]};
    {[ "conv1.out"%string := [6] ]};
    {[ "conv1.out"%string := [5] ]} ].

(** A round in which every client failed, and a round with three results. *)
Definition empty_round : RoundInput :=
  {| round_parameters := global; round_client_manager := [0; 1; 2]%nat;
     round_results := []; round_failures := [tt; tt; tt] |}.
Definition full_round : RoundInput :=
  {| round_parameters := global; round_client_manager := [0; 1; 2]%nat;
     round_results := [client_A; client_B; client_C]; round_failures := [] |}.

End Scenario.

(** ** Names of tensors *)

(** Whether a name has a ['.'] in it. *)
Fixpoint has_dot (s : string) : bool :=
  match s with
  | EmptyString => false
  | String c rest => Ascii.eqb c "."%char || has_dot rest
  end.

(** ** Readiness of a layer *)

Section Ready.
Context `{Collaborators}.

(** What a prunable layer needs for its decision to be computed. *)
Definition layer_ready (server_parameters : list NDArray)
    (client_metrics : list (gmap string (list Z))) (layer : nat * string) : Prop :=
  ∃ n, get_num_channels server_parameters layer.1 = Ok n ∧
       (n = 0%nat ∨ all_have_key layer.2 client_metrics = true).

End Ready.

(** ** More of the small instance *)

Module Scenario2.
Import Scenario.
#[local] Existing Instance world.


(** The proposals of [tie_proposals] with indices repeated and reordered
    and with an entry for another key. *)
Definition noisy_tie_proposals : list (gmap string (list Z)) :=
  [ {[ "conv1.out"%string := [6; 5; 6]; "bn1.out"%string := [1] ]};
    {[ "conv1.out"%string := [6; 6] ]};
    {[ "conv1.out"%string := [5] ]} ].

(** An aggregation function that reports the example counts it was given. *)
Definition counts_fn : MetricsAggregationFn :=
  λ fit_metrics, {[ "counts"%string := {[ "num_examples"%string := fit_metrics.*1 ]} ]}.

Definition strategy_with_fn : Struct_Prune_Aggregation :=
  {| on_fit_config_fn := None;
     on_evaluate_config_fn := None;
     accept_failures := true;
     fit_metrics_aggregation_fn := Some counts_fn;
     initial_parameters := None;
     central_parameters := Some global;
     aggregate_frac := 3 # 10;
     server_net := ResNet18 10 |}.

End Scenario2.

(** ** NumPy's arithmetic

    The definitions above take the two arithmetic steps of the loop, the
    sum of the example counts and the threshold test, in exact arithmetic.
    In the code [np.sum] adds 64-bit integers and wraps around, the
    product [self.aggregate_frac * tot_examples] is a binary64 product of
    the attribute and the total converted to binary64, and the comparison
    [x >= ...] converts the tally to binary64 and compares there.  [Machine]
    has the loop with that arithmetic; everything else is shared. *)

Module Machine.

Definition prec : Z := 53.
Definition emax : Z := 1024.

(** An integer converted to binary64, rounding to nearest, ties to even. *)
Definition float64_of_Z (z : Z) : spec_float := binary_normalize prec emax z 0 false.

(** The binary64 of a fraction whose numerator and denominator are below
    [2^53]: what Python holds for a literal such as [0.3]. *)
Definition float64_of_Q (q : Q) : spec_float :=
  SFdiv prec emax (float64_of_Z (Qnum q)) (float64_of_Z (Zpos (Qden q))).

(** The value of a 64-bit signed integer after overflow. *)
Definition wrap_int64 (z : Z) : Z := (z + 2 ^ 63) mod 2 ^ 64 - 2 ^ 63.

(** The range of [FitRes.num_examples], a 64-bit field of the message. *)
Definition int64 (z : Z) : Prop := - 2 ^ 63 ≤ z < 2 ^ 63.

(** [np.sum] of a list of 64-bit integers. *)
Definition np_sum (l : list Z) : Z := wrap_int64 (foldr Z.add 0 l).

(** [self.aggregate_frac * tot_examples]. *)
Definition threshold (aggregate_frac : Q) (tot_examples : Z) : spec_float :=
  SFmul prec emax (float64_of_Q aggregate_frac) (float64_of_Z tot_examples).

(** [x >= self.aggregate_frac * tot_examples]. *)
Definition reaches_threshold (aggregate_frac : Q) (tot_examples : Z) (x : Z) : bool :=
  SFleb (threshold aggregate_frac tot_examples) (float64_of_Z x).

Definition select_channels (aggregate_frac : Q) (tot_examples : Z) (cardinalities : list Z)
  : list nat :=
  omap (λ '(channel_idx, x),
          if reaches_threshold aggregate_frac tot_examples x then Some channel_idx else None)
       (enumerate cardinalities).

Definition layer_decision (aggregate_frac : Q) (tot_examples : Z) (key : string)
    (num_channels : nat) (client_metrics : list (gmap string (list Z)))
    (num_examples : list Z) : result (list nat) :=
  cardinalities ← count_channels key num_examples client_metrics (seq 0 num_channels) [];
  Ok (select_channels aggregate_frac tot_examples cardinalities).

Section Loop.
Context `{Collaborators}.

Definition layer_body (self : Struct_Prune_Aggregation) (server_parameters : list NDArray)
    (client_metrics : list (gmap string (list Z))) (num_examples : list Z) (tot_examples : Z)
    (index : nat) (key : string) (server_prune_ids : list (list nat))
  : result (list (list nat)) :=
  key ← proposal_key key;
  match key with
  | Some key =>
      num_channels ← get_num_channels server_parameters index;
      decision ← layer_decision (aggregate_frac self) tot_examples key num_channels
                                client_metrics num_examples;
      Ok (server_prune_ids ++ [decision])
  | None => Ok server_prune_ids
  end.

Fixpoint layer_loop (self : Struct_Prune_Aggregation) (server_parameters : list NDArray)
    (client_metrics : list (gmap string (list Z))) (num_examples : list Z) (tot_examples : Z)
    (index : nat) (model_dict : list string) (server_prune_ids : list (list nat))
  : result (list (list nat)) :=
  match model_dict with
  | [] => Ok server_prune_ids
  | key :: rest =>
      server_prune_ids ←
        layer_body self server_parameters client_metrics num_examples tot_examples
                   index key server_prune_ids;
      layer_loop self server_parameters client_metrics num_examples tot_examples
                 (S index) rest server_prune_ids
  end.

Definition compute_server_prune_ids (self : Struct_Prune_Aggregation)
    (server_parameters : list NDArray) (results : list (ClientProxy * FitRes))
  : result (list (list nat)) :=
  client_metrics ← get_client_metrics results;
  let num_examples := get_num_examples results in
  let model_dict := state_dict (server_net self) in
  let tot_examples := np_sum num_examples in
  layer_loop self server_parameters client_metrics num_examples tot_examples 0 model_dict [].

Definition aggregate_fit (self : Struct_Prune_Aggregation) (server_round : Z)
    (results : list (ClientProxy * FitRes)) (failures : list Failure)
  : result (Struct_Prune_Aggregation * list LogRecord
            * (option (list NDArray) * gmap string Scalar)) :=
  if negb (truthy results) then Ok (self, [], (None, ∅))
  else if negb (accept_failures self) && truthy failures then Ok (self, [], (None, ∅))
  else
    let client_parameters := (λ '(_, fit_res), parameters_to_ndarrays (parameters fit_res)) <$> results in
    server_parameters ←
      match central_parameters self with
      | Some p => Ok (parameters_to_ndarrays p)
      | None => Raise AttributeError
      end;
    server_prune_ids ← compute_server_prune_ids self server_parameters results;
    net ← prune_model_with_indices (server_net self) server_prune_ids;
    let self := set_server_net self net in
    match fit_metrics_aggregation_fn self with
    | Some fn =>
        let fit_metrics := (λ '(_, res), (num_examples res, metrics res)) <$> results in
        Ok (self, [], (Some server_parameters, fn fit_metrics))
    | None =>
        if bool_decide (server_round = 1)
        then Ok (self, [missing_fn_warning], (Some server_parameters, ∅))
        else Ok (self, [], (Some server_parameters, ∅))
    end.

(** What the loop has done for one prunable layer when it appended
    [decision]. *)
Definition decided (self : Struct_Prune_Aggregation) (server_parameters : list NDArray)
    (client_metrics : list (gmap string (list Z))) (num_examples : list Z) (tot_examples : Z)
    (layer : nat * string) (decision : list nat) : Prop :=
  ∃ num_channels,
    get_num_channels server_parameters layer.1 = Ok num_channels ∧
    layer_decision (aggregate_frac self) tot_examples layer.2 num_channels
                   client_metrics num_examples = Ok decision.

End Loop.

End Machine.

(** ** The log of a run

    The records a run of rounds has logged when it ends, whether it ends
    after its last round or at the call that raises: a call that raises
    has logged nothing, the warning being the last statement before the
    [return]. *)

Definition returns {A} (r : result A) : bool :=
  match r with Ok _ => true | Raise _ => false end.

Section RunLog.
Context `{Collaborators}.

Fixpoint fit_rounds_log (self : Struct_Prune_Aggregation) (server_round : Z)
    (rounds : list RoundInput) : list LogRecord :=
  match rounds with
  | [] => []
  | r :: rest =>
      let '(self, _) :=
        configure_fit self server_round (round_parameters r) (round_client_manager r) in
      match aggregate_fit self server_round (round_results r) (round_failures r) with
      | Ok (self, log, _) => log ++ fit_rounds_log self (server_round + 1) rest
      | Raise _ => []
      end
  end.

End RunLog.

(** ** Large instances *)

Module Scenario3.
Import Scenario.
#[local] Existing Instance world.

(** Two clients with 10^18 examples between them; the first lists
    channel 5 and has one example less than three tenths of the total. *)
Definition client_just_below : nat * FitRes := (0%nat, fit_res 299999999999999999 [5]).
Definition client_rest : nat * FitRes := (1%nat, fit_res 700000000000000001 []).

(** Two clients with 2^62 examples each, neither listing a channel. *)
Definition client_huge_1 : nat * FitRes := (0%nat, fit_res (2 ^ 62) []).
Definition client_huge_2 : nat * FitRes := (1%nat, fit_res (2 ^ 62) []).

(** Three clients of weights 10, 20 and 70; channel 6 is listed by the
    first two, which is 30 of 100. *)
Definition client_tie_1 : nat * FitRes := (0%nat, fit_res 10 [5; 6]).
Definition client_tie_2 : nat * FitRes := (1%nat, fit_res 20 [6]).
Definition client_tie_3 : nat * FitRes := (2%nat, fit_res 70 [5]).

(** A round whose only result has no ['prune_indices'] metric. *)
Definition bad_round : RoundInput :=
  {| round_parameters := global; round_client_manager := [0; 1; 2]%nat;
     round_results := [client_no_metric]; round_failures := [] |}.

End Scenario3.

(** * Properties *)

(** ** The exception monad *)

Lemma bind_Ok_inv {A B} (m : result A) (f : A → result B) (b : B) :
  m ≫= f = Ok b → ∃ a, m = Ok a ∧ f a = Ok b.
Proof. destruct m as [a|e]; simpl; [eauto | discriminate]. Qed.

Ltac inv_bind H :=
  let a := fresh "a" in
  let Ha := fresh "Ha" in
  apply bind_Ok_inv in H as (a & Ha & H).

(** ** Built-ins *)

Example split_dot_conv :
  split_dot "layer1.0.conv1.weight" = ["layer1"; "0"; "conv1"; "weight"]%string.
Proof. reflexivity. Qed.

Example re_match_conv_names :
  re_match_conv <$> ["conv1"; "conv2"; "conv12"; "conv"; "conv3"; "bn1"; "xconv1"]%string
  = [true; true; true; false; false; false; false].
Proof. reflexivity. Qed.

Example proposal_key_names :
  proposal_key <$> ["conv1.weight"; "layer1.0.conv2.weight"; "bn1.weight";
                    "layer2.0.shortcut.0.weight"; "weight"]%string
  = [Ok (Some "conv1.out"); Ok (Some "layer1.0.conv2.out"); Ok None; Ok None;
     Raise IndexError]%string.
Proof. reflexivity. Qed.

Lemma np_sum_Permutation (l1 l2 : list Z) : l1 ≡ₚ l2 → np_sum l1 = np_sum l2.
Proof. unfold np_sum. induction 1; simpl; lia. Qed.

(** ** The tally loops against the sum *)

Lemma tally_sum_Permutation key c (cl1 cl2 : list (gmap string (list Z) * Z)) :
  cl1 ≡ₚ cl2 → tally_sum key c cl1 = tally_sum key c cl2.
Proof.
  unfold tally_sum.
  induction 1 as [|x l1 l2 _ IH|x y l|l1 l2 l3 _ IH1 _ IH2]; simpl.
  - reflexivity.
  - destruct x; lia.
  - destruct x, y; lia.
  - congruence.
Qed.

Lemma all_have_key_Permutation key (cm1 cm2 : list (gmap string (list Z))) :
  cm1 ≡ₚ cm2 → all_have_key key cm1 = all_have_key key cm2.
Proof.
  unfold all_have_key.
  induction 1 as [|x l1 l2 _ IH|x y l|l1 l2 l3 _ IH1 _ IH2]; simpl.
  - reflexivity.
  - by rewrite IH.
  - by rewrite !andb_assoc, (andb_comm (bool_decide _)).
  - congruence.
Qed.

(** The innermost loop adds, to the running count, the weights of the
    clients that list the channel; it raises when a client has no entry for
    the layer. *)
Lemma count_clients_sum key c (cm : list (gmap string (list Z))) :
  ∀ (ne : list Z) (idx : nat) (acc : Z),
    length ne = (idx + length cm)%nat →
    count_clients key c ne idx cm acc =
      if all_have_key key cm
      then Ok (acc + tally_sum key c (zip cm (drop idx ne)))
      else Raise (KeyError key).
Proof.
  induction cm as [|client rest IH]; intros ne idx acc Hlen; simpl.
  - f_equal. lia.
  - unfold dict_getitem, vote.
    destruct (ne !! idx) as [n|] eqn:Hn; cycle 1.
    { apply lookup_ge_None in Hn. simpl in Hlen. lia. }
    rewrite (drop_S _ _ _ Hn). simpl.
    destruct (client !! key) as [prune_ids|] eqn:Hk; simpl; [|reflexivity].
    unfold list_getitem, vote. rewrite Hn, Hk. simpl.
    destruct (py_in (Z.of_nat c) prune_ids);
      rewrite IH by (simpl in Hlen; lia);
      destruct (all_have_key key rest); f_equal; lia.
Qed.

Lemma count_channels_all key (ne : list Z) (cm : list (gmap string (list Z))) :
  length ne = length cm →
  all_have_key key cm = true →
  ∀ channels cardinalities,
    count_channels key ne cm channels cardinalities =
      Ok (cardinalities ++ ((λ c, tally_sum key c (zip cm ne)) <$> channels)).
Proof.
  intros Hlen Hall channels.
  induction channels as [|c rest IH]; intros cards; simpl.
  - by rewrite app_nil_r.
  - rewrite count_clients_sum, Hall by (simpl; lia). simpl.
    rewrite IH, <- app_assoc. reflexivity.
Qed.

Lemma count_channels_missing key (ne : list Z) (cm : list (gmap string (list Z))) :
  length ne = length cm →
  all_have_key key cm = false →
  ∀ channels cardinalities,
    channels ≠ [] →
    count_channels key ne cm channels cardinalities = Raise (KeyError key).
Proof.
  intros Hlen Hall [|c rest] cards Hne; [done|]. simpl.
  rewrite count_clients_sum, Hall by (simpl; lia). reflexivity.
Qed.

(** The tally of a channel as the loops leave it in [cardinalities]. *)
Lemma count_channels_lookup key ne cm : ∀ channels cardinalities out,
  count_channels key ne cm channels cardinalities = Ok out →
  length out = (length cardinalities + length channels)%nat ∧
  (∀ i x, cardinalities !! i = Some x → out !! i = Some x) ∧
  ∀ i c, channels !! i = Some c →
    ∃ t, count_clients key c ne 0 cm 0 = Ok t ∧ out !! (length cardinalities + i)%nat = Some t.
Proof.
  induction channels as [|c rest IH]; intros cards out Hrun; simpl in Hrun.
  - injection Hrun as <-. split; [simpl; lia|]. split; [auto|]. intros i c' Hi. done.
  - inv_bind Hrun. apply IH in Hrun as (Hlen & Hold & Hnew).
    rewrite length_app in Hlen, Hnew. simpl in *.
    split; [lia|]. split.
    + intros i x Hi. apply Hold. by apply lookup_app_l_Some.
    + intros [|i] c' Hi; simpl in Hi.
      * injection Hi as <-. exists a. split; [done|].
        apply Hold. rewrite Nat.add_0_r. by apply list_lookup_middle.
      * destruct (Hnew i c' Hi) as (t & Ht & Hout). exists t. split; [done|].
        rewrite <- Hout. f_equal. lia.
Qed.

(** ** Thresholding *)


Lemma elem_of_select_channels (f : Q) (T : Z) (cardinalities : list Z) (i : nat) :
  i ∈ select_channels f T cardinalities ↔
  ∃ x, cardinalities !! i = Some x ∧ reaches_threshold f T x = true.
Proof.
  unfold select_channels, enumerate. rewrite list_elem_of_omap. split.
  - intros ([j x] & Hin & Hsel).
    apply elem_of_lookup_imap in Hin as (j' & x' & [= -> ->] & Hl).
    destruct (reaches_threshold f T x') eqn:Hr; [|discriminate].
    injection Hsel as ->. eauto.
  - intros (x & Hl & Hr). exists (i, x). split.
    + apply (elem_of_lookup_imap_2 pair). exact Hl.
    + by rewrite Hr.
Qed.

Lemma select_channels_offset (f : Q) (T : Z) (cardinalities : list Z) : ∀ k,
  let l := omap (λ '(channel_idx, x),
                   if reaches_threshold f T x then Some channel_idx else None)
                (imap (λ j x, ((k + j)%nat, x)) cardinalities) in
  NoDup l ∧ Forall (λ i, (k ≤ i)%nat) l.
Proof.
  induction cardinalities as [|x rest IH]; intros k; simpl.
  - split; constructor.
  - rewrite (imap_ext _ (λ j y, ((S k + j)%nat, y))) by (intros; simpl; f_equal; lia).
    destruct (IH (S k)) as [Hnd Hge].
    destruct (reaches_threshold f T x).
    + split.
      * constructor; [|done]. intros Hin.
        rewrite Forall_forall in Hge. apply Hge in Hin. lia.
      * constructor; [lia|]. eapply Forall_impl; [exact Hge|]. simpl. lia.
    + split; [done|]. eapply Forall_impl; [exact Hge|]. simpl. lia.
Qed.

Lemma NoDup_select_channels (f : Q) (T : Z) (cardinalities : list Z) :
  NoDup (select_channels f T cardinalities).
Proof. apply (select_channels_offset f T cardinalities 0). Qed.

(** ** One layer *)

Lemma layer_decision_inv (f : Q) (T : Z) key n cm ne decision :
  layer_decision f T key n cm ne = Ok decision →
  NoDup decision ∧
  ∀ c, (c ∈ decision → (c < n)%nat) ∧
       ((c < n)%nat →
        ∃ t, count_clients key c ne 0 cm 0 = Ok t ∧
             (c ∈ decision ↔ reaches_threshold f T t = true)).
Proof.
  unfold layer_decision. intros Hrun. inv_bind Hrun. injection Hrun as <-.
  apply count_channels_lookup in Ha as (Hlen & _ & Hnew).
  rewrite length_seq in Hlen. simpl in Hlen.
  split; [apply NoDup_select_channels|].
  intros c. split.
  - rewrite elem_of_select_channels. intros (x & Hx & _).
    apply lookup_lt_Some in Hx. lia.
  - intros Hc. destruct (Hnew c c) as (t & Ht & Hout).
    { by rewrite lookup_seq_lt. }
    simpl in Hout. exists t. split; [done|].
    rewrite elem_of_select_channels. split.
    + intros (x & Hx & Hr). congruence.
    + eauto.
Qed.

(** ** The loop over the tensors *)

Section Loop.
Context `{Collaborators}.

(** A run of the loop that returns has appended, in order, one decision
    for each prunable tensor. *)
Lemma layer_loop_inv self sp cm ne T : ∀ model_dict index acc out,
  layer_loop self sp cm ne T index model_dict acc = Ok out →
  ∃ ds, out = acc ++ ds ∧
        Forall2 (decided self sp cm ne T) (prunable_layers index model_dict) ds.
Proof.
  induction model_dict as [|key rest IH]; intros index acc out Hrun; simpl in Hrun.
  - injection Hrun as <-. exists []. split; [by rewrite app_nil_r | constructor].
  - inv_bind Hrun. unfold layer_body in Ha. inv_bind Ha. simpl. rewrite Ha0.
    destruct a0 as [k|].
    + inv_bind Ha. inv_bind Ha. injection Ha as <-.
      apply IH in Hrun as (ds & -> & Hds).
      exists (a1 :: ds). split; [by rewrite <- app_assoc|].
      constructor; [|done]. exists a0. done.
    + injection Ha as <-. by apply IH in Hrun.
Qed.

(** The loop sees the clients only through the decision of each layer. *)
Lemma layer_loop_ext self sp cm ne cm' ne' T :
  (∀ key n, layer_decision (aggregate_frac self) T key n cm ne
            = layer_decision (aggregate_frac self) T key n cm' ne') →
  ∀ model_dict index acc,
    layer_loop self sp cm ne T index model_dict acc
    = layer_loop self sp cm' ne' T index model_dict acc.
Proof.
  intros Hext. induction model_dict as [|key rest IH]; intros index acc; simpl; [done|].
  unfold layer_body. destruct (proposal_key key) as [[k|]|e]; simpl; [| by rewrite IH | done].
  destruct (get_num_channels sp index) as [n|e]; simpl; [|done].
  rewrite Hext. destruct (layer_decision _ _ _ _ cm' ne') as [d|e]; simpl; [|done].
  apply IH.
Qed.

Lemma elem_of_prunable_layers key k : ∀ model_dict index i,
  model_dict !! i = Some key →
  proposal_key key = Ok (Some k) →
  ((index + i)%nat, k) ∈ prunable_layers index model_dict.
Proof.
  induction model_dict as [|key' rest IH]; intros index [|i] Hi Hk; simpl in *; try done.
  - injection Hi as ->. rewrite Hk, Nat.add_0_r. left.
  - replace (index + S i)%nat with (S index + i)%nat by lia.
    specialize (IH (S index) i Hi Hk).
    destruct (proposal_key key') as [[k'|]|e]; [right| |]; done.
Qed.

(** ** From the results to the clients *)

Lemma get_client_metrics_spec (results : list (ClientProxy * FitRes)) :
  get_client_metrics results =
    if forallb has_metric results
    then Ok ((λ r, proposal_of r.2) <$> results)
    else Raise (KeyError "prune_indices").
Proof.
  unfold get_client_metrics.
  set (g := λ '(_, res), _).
  induction results as [|[cp res] rest IH]; simpl; [done|].
  rewrite IH. clear IH.
  assert (dict_getitem (metrics res) "prune_indices" ≫= (λ v, Ok (json_loads v))
          = if has_metric (cp, res) then Ok (proposal_of res)
            else Raise (KeyError "prune_indices")) as ->.
  { unfold dict_getitem, has_metric, proposal_of. simpl.
    destruct (metrics res !! "prune_indices"%string) as [v|]; simpl; done. }
  destruct (has_metric (cp, res)), (forallb has_metric rest); done.
Qed.

Lemma zip_clients (results : list (ClientProxy * FitRes)) :
  zip ((λ r, proposal_of r.2) <$> results) (get_num_examples results) = clients_of results.
Proof.
  unfold get_num_examples, clients_of.
  induction results as [|[cp res] rest IH]; simpl; [done|]. f_equal. exact IH.
Qed.

Lemma np_sum_num_examples (results : list (ClientProxy * FitRes)) :
  np_sum (get_num_examples results) = total_weight results.
Proof.
  unfold get_num_examples, total_weight, np_sum.
  induction results as [|[cp res] rest IH]; simpl; [done|]. f_equal. exact IH.
Qed.

Lemma compute_server_prune_ids_inv self sp results ids :
  compute_server_prune_ids self sp results = Ok ids →
  forallb has_metric results = true ∧
  Forall2 (decided self sp ((λ r, proposal_of r.2) <$> results) (get_num_examples results)
                   (total_weight results))
          (prunable_layers 0 (state_dict (server_net self))) ids.
Proof.
  unfold compute_server_prune_ids. rewrite get_client_metrics_spec.
  destruct (forallb has_metric results); simpl; [|done].
  intros Hrun. split; [done|].
  apply layer_loop_inv in Hrun as (ds & -> & Hds).
  by rewrite np_sum_num_examples in Hds.
Qed.

End Loop.

(** ** The callbacks *)

Section Callbacks.
Context `{Collaborators}.

Lemma configure_fit_state self server_round p client_manager :
  (configure_fit self server_round p client_manager).1 = set_central_parameters self p.
Proof. unfold configure_fit. destruct (num_fit_clients _). reflexivity. Qed.

(** What a call of [aggregate_fit] that gets past the early returns and
    returns normally has done. *)
Lemma aggregate_fit_inv self server_round results failures self' log out m :
  aggregates self results failures = true →
  aggregate_fit self server_round results failures = Ok (self', log, (out, m)) →
  ∃ p ids net,
    central_parameters self = Some p ∧
    compute_server_prune_ids self (parameters_to_ndarrays p) results = Ok ids ∧
    prune_model_with_indices (server_net self) ids = Ok net ∧
    self' = set_server_net self net ∧
    out = Some (parameters_to_ndarrays p) ∧
    log = match fit_metrics_aggregation_fn self with
          | Some _ => []
          | None => if bool_decide (server_round = 1) then [missing_fn_warning] else []
          end ∧
    (fit_metrics_aggregation_fn self = None → m = ∅).
Proof.
  unfold aggregates, aggregate_fit. intros Hagg Hrun.
  apply andb_prop in Hagg as [Hres Hfail]. rewrite Hres in Hrun. simpl in Hrun.
  destruct (negb (accept_failures self) && truthy failures) eqn:Hrej.
  { apply andb_prop in Hrej as [Hacc Hf]. rewrite Hf in Hfail.
    destruct (accept_failures self); done. }
  destruct (central_parameters self) as [p|]; [|done]. simpl in Hrun.
  inv_bind Hrun. inv_bind Hrun. simpl in Hrun.
  exists p, a, a0. repeat (split; [done|]).
  destruct (fit_metrics_aggregation_fn self) as [fn|].
  - injection Hrun as <- <- <- <-. done.
  - destruct (bool_decide (server_round = 1)); injection Hrun as <- <- <- <-; done.
Qed.

Lemma aggregate_fit_early self server_round results failures :
  aggregates self results failures = false →
  aggregate_fit self server_round results failures = Ok (self, [], (None, ∅)).
Proof.
  unfold aggregates, aggregate_fit. intros Hagg.
  destruct (truthy results); simpl in *; [|done].
  destruct (accept_failures self), (truthy failures); done.
Qed.

End Callbacks.

(** * The claims *)

Section Claims.
Context `{Collaborators}.

(** C3.  No-op safety.  With no results, or with failures when failures
    are not accepted, [aggregate_fit] returns [None] and empty metrics,
    logs nothing, and leaves the strategy, its stored parameters and its
    network included, as it was. *)
Theorem no_results_or_rejected_failures_is_noop (self : Struct_Prune_Aggregation)
    (server_round : Z) (results : list (ClientProxy * FitRes)) (failures : list Failure) :
  results = [] ∨ (failures ≠ [] ∧ accept_failures self = false) →
  aggregate_fit self server_round results failures = Ok (self, [], (None, ∅)).
Proof.
  intros [-> | [Hf Hacc]]; unfold aggregate_fit; simpl; [done|].
  rewrite Hacc. destruct results, failures; done.
Qed.

(** C8.  The decision of every prunable layer lists channels below the
    layer's channel count, each at most once. *)
Theorem prune_decision_in_range_and_distinct (self : Struct_Prune_Aggregation)
    (server_parameters : list NDArray) (results : list (ClientProxy * FitRes))
    (ids : list (list nat)) :
  compute_server_prune_ids self server_parameters results = Ok ids →
  Forall2 (λ '(index, key) decision,
             ∃ n, get_num_channels server_parameters index = Ok n ∧
                  NoDup decision ∧ Forall (λ c, (c < n)%nat) decision)
          (prunable_layers 0 (state_dict (server_net self))) ids.
Proof.
  intros Hrun. apply compute_server_prune_ids_inv in Hrun as [_ Hall].
  eapply Forall2_impl; [exact Hall|].
  intros [index key] decision (n & Hn & Hdec). exists n. split; [exact Hn|].
  simpl in Hdec. apply layer_decision_inv in Hdec as [Hnd Hdec].
  split; [exact Hnd|]. apply Forall_forall. intros c Hin. by apply (Hdec c).
Qed.

(** C10.  After [configure_fit] has stored [p], a call of [aggregate_fit]
    that aggregates and returns gives back the arrays of [p] and keeps [p]
    stored; any other such call, whatever its results and so whatever its
    prune decision, gives back the same arrays. *)
Theorem aggregate_fit_returns_stored_parameters (self : Struct_Prune_Aggregation)
    (r : Z) (p : Parameters) (client_manager : ClientManager)
    (server_round : Z) (results : list (ClientProxy * FitRes)) (failures : list Failure)
    (self' : Struct_Prune_Aggregation) (log : list LogRecord)
    (out : option (list NDArray)) (m : gmap string Scalar) :
  let configured := (configure_fit self r p client_manager).1 in
  aggregates configured results failures = true →
  aggregate_fit configured server_round results failures = Ok (self', log, (out, m)) →
  out = Some (parameters_to_ndarrays p) ∧
  central_parameters self' = Some p ∧
  ∀ server_round' results' failures' self'' log' out' m',
    aggregates configured results' failures' = true →
    aggregate_fit configured server_round' results' failures' = Ok (self'', log', (out', m')) →
    out' = out.
Proof.
  intros configured Hagg Hrun. subst configured.
  rewrite configure_fit_state in *.
  apply aggregate_fit_inv in Hrun as (p' & ids & net & Hp & _ & _ & -> & -> & _); [|exact Hagg].
  simpl in Hp. injection Hp as <-.
  split; [done|]. split; [done|].
  intros sr' results' failures' self'' log' out' m' Hagg' Hrun'.
  apply aggregate_fit_inv in Hrun' as (p' & ids' & net' & Hp' & _ & _ & _ & -> & _);
    [|exact Hagg'].
  simpl in Hp'. by injection Hp' as <-.
Qed.

End Claims.

(** ** Order of the results *)

Section Order.
Context `{Collaborators}.

Lemma forallb_Permutation {A} (f : A → bool) (l1 l2 : list A) :
  l1 ≡ₚ l2 → forallb f l1 = forallb f l2.
Proof.
  induction 1 as [|x l1 l2 _ IH|x y l|l1 l2 l3 _ IH1 _ IH2]; simpl.
  - reflexivity.
  - by rewrite IH.
  - by rewrite !andb_assoc, (andb_comm (f y)).
  - congruence.
Qed.

Lemma length_proposals (results : list (ClientProxy * FitRes)) :
  length (get_num_examples results) = length ((λ r, proposal_of r.2) <$> results).
Proof. unfold get_num_examples. by rewrite !length_fmap. Qed.

Lemma count_channels_Permutation (results results' : list (ClientProxy * FitRes)) :
  results ≡ₚ results' →
  ∀ key channels cardinalities,
    count_channels key (get_num_examples results)
                   ((λ r, proposal_of r.2) <$> results) channels cardinalities
    = count_channels key (get_num_examples results')
                     ((λ r, proposal_of r.2) <$> results') channels cardinalities.
Proof.
  intros Hperm key channels cards.
  pose proof (all_have_key_Permutation key _ _
                (fmap_Permutation (λ r, proposal_of r.2) _ _ Hperm)) as Hkeys.
  destruct (all_have_key key ((λ r, proposal_of r.2) <$> results)) eqn:Hall;
    symmetry in Hkeys.
  - rewrite !count_channels_all by (done || apply length_proposals).
    rewrite !zip_clients. do 2 f_equal.
    apply list_fmap_ext. intros _ c _.
    apply tally_sum_Permutation. unfold clients_of. by apply fmap_Permutation.
  - destruct channels as [|c rest]; [done|].
    rewrite !count_channels_missing by (done || apply length_proposals). done.
Qed.

(** C6.  Order-independence.  Two lists of results that are permutations
    of one another give the same outcome of the computation of
    [server_prune_ids] (the same decisions, or the same exception), and
    the same tallies for every layer key and every range of channels. *)
Theorem aggregation_is_order_independent (self : Struct_Prune_Aggregation)
    (server_parameters : list NDArray) (results results' : list (ClientProxy * FitRes)) :
  results ≡ₚ results' →
  compute_server_prune_ids self server_parameters results
  = compute_server_prune_ids self server_parameters results' ∧
  ∀ cm cm', get_client_metrics results = Ok cm →
            get_client_metrics results' = Ok cm' →
            ∀ key channels,
              count_channels key (get_num_examples results) cm channels []
              = count_channels key (get_num_examples results') cm' channels [].
Proof.
  intros Hperm.
  pose proof (forallb_Permutation has_metric _ _ Hperm) as Hmet.
  split.
  - unfold compute_server_prune_ids. rewrite !get_client_metrics_spec, <- Hmet.
    destruct (forallb has_metric results); simpl; [|done].
    rewrite !np_sum_num_examples.
    assert (total_weight results = total_weight results') as <-.
    { rewrite <- !np_sum_num_examples. apply np_sum_Permutation.
      unfold get_num_examples. by apply fmap_Permutation. }
    apply layer_loop_ext. intros key n. unfold layer_decision.
    by rewrite (count_channels_Permutation _ _ Hperm).
  - intros cm cm'. rewrite !get_client_metrics_spec, <- Hmet.
    destruct (forallb has_metric results); [|done].
    intros [= <-] [= <-] key channels.
    by apply count_channels_Permutation.
Qed.

End Order.

(** ** Indices outside the layer *)

Lemma py_in_filter_in_range (n c : nat) (prune_ids : list Z) :
  (c < n)%nat →
  py_in (Z.of_nat c) (List.filter (in_range n) prune_ids) = py_in (Z.of_nat c) prune_ids.
Proof.
  intros Hc. unfold py_in. apply bool_decide_ext.
  rewrite !list_elem_of_In, filter_In. unfold in_range.
  split; [tauto|]. intros Hin. split; [done|].
  apply andb_true_intro. split; [apply Z.leb_le | apply Z.ltb_lt]; lia.
Qed.

Lemma lookup_drop_out_of_range key (n : nat) (client : gmap string (list Z)) :
  drop_out_of_range key n client !! key = List.filter (in_range n) <$> client !! key.
Proof. unfold drop_out_of_range. apply lookup_alter_eq. Qed.

Lemma count_clients_drop_out_of_range key (n c : nat) (ne : list Z) :
  (c < n)%nat →
  ∀ (cm : list (gmap string (list Z))) idx acc,
    count_clients key c ne idx (drop_out_of_range key n <$> cm) acc
    = count_clients key c ne idx cm acc.
Proof.
  intros Hc. induction cm as [|client rest IH]; intros idx acc; simpl; [done|].
  unfold dict_getitem. rewrite lookup_drop_out_of_range.
  destruct (client !! key) as [prune_ids|]; simpl; [|done].
  rewrite py_in_filter_in_range by done.
  destruct (py_in (Z.of_nat c) prune_ids); [|apply IH].
  destruct (list_getitem ne idx); simpl; [apply IH | done].
Qed.

Lemma count_channels_drop_out_of_range key (n : nat) (ne : list Z)
    (cm : list (gmap string (list Z))) :
  ∀ channels cardinalities,
    Forall (λ c, (c < n)%nat) channels →
    count_channels key ne (drop_out_of_range key n <$> cm) channels cardinalities
    = count_channels key ne cm channels cardinalities.
Proof.
  induction channels as [|c rest IH]; intros cards Hall; simpl; [done|].
  apply Forall_cons in Hall as [Hc Hrest].
  rewrite count_clients_drop_out_of_range by done.
  destruct (count_clients key c ne 0 cm 0); simpl; [by apply IH | done].
Qed.

(** C4, as the code has it.  Channel indices outside [0, n) in a proposal
    are ignored: the outcome of a layer's decision (its tallies, the
    channels selected, or the exception of a missing entry) is the one
    obtained from the proposals with those indices removed. *)
Theorem out_of_range_indices_are_ignored (f : Q) (T : Z) (key : string) (n : nat)
    (cm : list (gmap string (list Z))) (ne : list Z) :
  layer_decision f T key n (drop_out_of_range key n <$> cm) ne
  = layer_decision f T key n cm ne.
Proof.
  unfold layer_decision. rewrite count_channels_drop_out_of_range; [done|].
  apply Forall_forall. intros c Hc. apply elem_of_seq in Hc. lia.
Qed.

(** ** Missing proposals *)

Section Missing.
Context `{Collaborators}.

Lemma all_have_key_missing key (results : list (ClientProxy * FitRes)) r :
  r ∈ results → proposal_of r.2 !! key = None →
  all_have_key key ((λ r, proposal_of r.2) <$> results) = false.
Proof.
  intros Hin Hnone. apply not_true_is_false. intros Hall.
  unfold all_have_key in Hall. rewrite forallb_forall in Hall.
  specialize (Hall (proposal_of r.2)).
  rewrite bool_decide_eq_true, Hnone in Hall.
  destruct Hall as [? ?]; [|done].
  apply list_elem_of_In, list_elem_of_fmap. eauto.
Qed.

(** C5, as the code has it.  In a call that gets past the early returns, a
    result without the ['prune_indices'] metric, or a proposal without the
    entry of a prunable layer that has at least one channel, makes
    [aggregate_fit] raise: the call returns nothing for any client. *)
Theorem missing_proposal_raises (self : Struct_Prune_Aggregation) (server_round : Z)
    (results : list (ClientProxy * FitRes)) (failures : list Failure) :
  aggregates self results failures = true →
  (∃ r, r ∈ results ∧ metrics r.2 !! "prune_indices"%string = None) ∨
  (∃ r p index key k n,
      r ∈ results ∧
      central_parameters self = Some p ∧
      state_dict (server_net self) !! index = Some key ∧
      proposal_key key = Ok (Some k) ∧
      get_num_channels (parameters_to_ndarrays p) index = Ok (S n) ∧
      proposal_of r.2 !! k = None) →
  ∃ e, aggregate_fit self server_round results failures = Raise e.
Proof.
  intros Hagg Hmiss.
  destruct (aggregate_fit self server_round results failures)
    as [[[self' log] [out m]]|e] eqn:Hrun; [exfalso | eauto].
  apply aggregate_fit_inv in Hrun as (p' & ids & net & Hp & Hids & _); [|exact Hagg].
  apply compute_server_prune_ids_inv in Hids as [Hmet Hall].
  destruct Hmiss as [(r & Hin & Hnone) | (r & p & index & key & k & n & Hin & Hp' & Hkey & Hk & Hn & Hnone)].
  - rewrite forallb_forall in Hmet. specialize (Hmet r).
    unfold has_metric in Hmet. rewrite bool_decide_eq_true, Hnone in Hmet.
    destruct Hmet as [? ?]; [|done]. by apply list_elem_of_In.
  - rewrite Hp in Hp'. injection Hp' as ->.
    pose proof (elem_of_prunable_layers key k _ 0%nat index Hkey Hk) as Hlayer.
    apply list_elem_of_lookup in Hlayer as [i Hi].
    destruct (Forall2_lookup_l _ _ _ _ _ Hall Hi) as (decision & _ & n' & Hn' & Hdec).
    simpl in Hn', Hdec. rewrite Hn in Hn'. injection Hn' as <-.
    unfold layer_decision in Hdec. inv_bind Hdec.
    rewrite count_channels_missing in Ha; [done | apply length_proposals | | done].
    by eapply all_have_key_missing.
Qed.

End Missing.

(** ** The warning over a run of rounds *)

Section Warning.
Context `{Collaborators}.

Lemma aggregate_fit_without_fn self server_round results failures self' log out m :
  fit_metrics_aggregation_fn self = None →
  aggregate_fit self server_round results failures = Ok (self', log, (out, m)) →
  fit_metrics_aggregation_fn self' = None ∧
  accept_failures self' = accept_failures self ∧
  m = ∅ ∧
  log = if aggregates self results failures && bool_decide (server_round = 1)
        then [missing_fn_warning] else [].
Proof.
  intros Hfn Hrun. destruct (aggregates self results failures) eqn:Hagg.
  - apply aggregate_fit_inv in Hrun as (p & ids & net & _ & _ & _ & -> & _ & -> & Hm);
      [|exact Hagg].
    rewrite Hfn. simpl. auto.
  - rewrite aggregate_fit_early in Hrun by done.
    injection Hrun as <- <- <- <-. auto.
Qed.

Lemma fit_rounds_log_cons self server_round r rest :
  fit_rounds_log self server_round (r :: rest) =
    match aggregate_fit (configure_fit self server_round (round_parameters r)
                           (round_client_manager r)).1
                        server_round (round_results r) (round_failures r) with
    | Ok (self1, log, _) => log ++ fit_rounds_log self1 (server_round + 1) rest
    | Raise _ => []
    end.
Proof. simpl. by destruct (configure_fit _ _ _ _). Qed.

Lemma fit_rounds_unfold self server_round r rest :
  fit_rounds self server_round (r :: rest) =
    '(self1, log1, out) ← aggregate_fit (configure_fit self server_round (round_parameters r)
                                           (round_client_manager r)).1
                                        server_round (round_results r) (round_failures r);
    '(self2, log2, outs) ← fit_rounds self1 (server_round + 1) rest;
    Ok (self2, log1 ++ log2, out :: outs).
Proof. simpl. by destruct (configure_fit _ _ _ _). Qed.

Lemma fit_rounds_log_after_first : ∀ rounds self server_round,
  1 < server_round →
  fit_metrics_aggregation_fn self = None →
  fit_rounds_log self server_round rounds = [].
Proof.
  induction rounds as [|r rest IH]; intros self k Hk Hfn; [done|].
  rewrite fit_rounds_log_cons, configure_fit_state.
  destruct (aggregate_fit _ k _ _) as [[[self1 log1] [out m]]|e] eqn:Hcall; [|done].
  apply aggregate_fit_without_fn in Hcall as (Hfn1 & _ & _ & ->); [|done].
  rewrite bool_decide_false, andb_false_r by lia.
  rewrite IH by (lia || done). done.
Qed.

Lemma fit_rounds_logged : ∀ rounds self server_round self' log outs,
  fit_rounds self server_round rounds = Ok (self', log, outs) →
  log = fit_rounds_log self server_round rounds.
Proof.
  induction rounds as [|r rest IH]; intros self k self' log outs Hrun.
  - simpl in Hrun. by injection Hrun as <- <- <-.
  - rewrite fit_rounds_unfold in Hrun. rewrite fit_rounds_log_cons.
    inv_bind Hrun. destruct a as [[self1 log1] [out m]]. rewrite Ha.
    inv_bind Hrun. destruct a as [[self2 log2] outs2]. injection Hrun as <- <- <-.
    by rewrite (IH _ _ _ _ _ Ha0).
Qed.

Lemma fit_rounds_metrics_without_fn : ∀ rounds self server_round self' log outs,
  fit_metrics_aggregation_fn self = None →
  fit_rounds self server_round rounds = Ok (self', log, outs) →
  Forall (λ o, o.2 = ∅) outs.
Proof.
  induction rounds as [|r rest IH]; intros self k self' log outs Hfn Hrun.
  - simpl in Hrun. injection Hrun as <- <- <-. constructor.
  - rewrite fit_rounds_unfold, configure_fit_state in Hrun.
    inv_bind Hrun. destruct a as [[self1 log1] [out m]].
    inv_bind Hrun. destruct a as [[self2 log2] outs2]. injection Hrun as <- <- <-.
    apply aggregate_fit_without_fn in Ha as (Hfn1 & _ & -> & _); [|done].
    constructor; [done|]. by eapply IH.
Qed.

(** C9, as the code has it.  When no aggregation function is supplied:
    over a run of rounds, whether it ends after its last round or at a
    call that raises, the warning is logged once if the call for the first
    round gets past the early returns and returns, and not at all
    otherwise, so at most once; and every call that returns gives empty
    metrics. *)
Theorem missing_fn_warning_once_iff_first_call_returns (self : Struct_Prune_Aggregation)
    (rounds : list RoundInput) :
  fit_metrics_aggregation_fn self = None →
  fit_rounds_log self 1 rounds =
    match rounds with
    | r :: _ =>
        if aggregates self (round_results r) (round_failures r)
           && returns (aggregate_fit
                         (configure_fit self 1 (round_parameters r)
                                        (round_client_manager r)).1
                         1 (round_results r) (round_failures r))
        then [missing_fn_warning] else []
    | [] => []
    end ∧
  (length (fit_rounds_log self 1 rounds) ≤ 1)%nat ∧
  (∀ server_round results failures self' log out m,
     aggregate_fit self server_round results failures = Ok (self', log, (out, m)) →
     m = ∅) ∧
  (∀ self' log outs,
     fit_rounds self 1 rounds = Ok (self', log, outs) →
     log = fit_rounds_log self 1 rounds ∧ Forall (λ o, o.2 = ∅) outs).
Proof.
  intros Hfn.
  assert (fit_rounds_log self 1 rounds =
            match rounds with
            | r :: _ =>
                if aggregates self (round_results r) (round_failures r)
                   && returns (aggregate_fit
                                 (configure_fit self 1 (round_parameters r)
                                                (round_client_manager r)).1
                                 1 (round_results r) (round_failures r))
                then [missing_fn_warning] else []
            | [] => []
            end) as Hlog.
  { destruct rounds as [|r rest]; [done|].
    rewrite fit_rounds_log_cons, configure_fit_state.
    destruct (aggregate_fit _ 1 _ _) as [[[self1 log1] [out m]]|e] eqn:Hcall; simpl.
    - apply aggregate_fit_without_fn in Hcall as (Hfn1 & _ & _ & ->); [|done].
      rewrite fit_rounds_log_after_first, app_nil_r by (lia || done).
      rewrite andb_true_r.
      replace (aggregates (set_central_parameters self (round_parameters r))
                          (round_results r) (round_failures r))
        with (aggregates self (round_results r) (round_failures r)) by done.
      by rewrite andb_true_r.
    - by rewrite andb_false_r. }
  split; [exact Hlog|]. split; [|split].
  - rewrite Hlog. destruct rounds as [|r rest]; [simpl; lia|].
    destruct (_ && _); simpl; lia.
  - intros sr results failures self' log out m Hcall.
    by apply aggregate_fit_without_fn in Hcall as (_ & _ & -> & _).
  - intros self' log outs Hrun. split.
    + by eapply fit_rounds_logged.
    + by eapply fit_rounds_metrics_without_fn.
Qed.

End Warning.

(** * The instance *)

Module ScenarioFacts.
Import Scenario.
#[local] Existing Instance world.

(** C1.  In the scenario of three clients the decision for the first
    convolution is to prune channel 5, yet [aggregate_fit] returns the
    arrays of the stored parameters as they were: the first tensor still
    has its eight output channels. *)
Theorem aggregate_fit_returns_unpruned_parameters :
  compute_server_prune_ids strategy global [client_A; client_B; client_C] = Ok [[5%nat]] ∧
  aggregate_fit strategy 1 [client_A; client_B; client_C] []
  = Ok (strategy, [missing_fn_warning], (Some global, ∅)) ∧
  get_num_channels global 0 = Ok 8%nat.
Proof. repeat split; vm_compute; reflexivity. Qed.

Lemma no_results_or_rejected_failures_is_noop_witness :
  aggregate_fit strict_strategy 1 [client_A; client_B] [tt]
  = Ok (strict_strategy, [], (None, ∅)).
Proof.
  apply (no_results_or_rejected_failures_is_noop strict_strategy 1 [client_A; client_B] [tt]).
  right. split; [discriminate | reflexivity].
Defined.

Lemma prune_decision_in_range_and_distinct_witness :
  Forall2 (λ '(index, key) decision,
             ∃ n, get_num_channels global index = Ok n ∧
                  NoDup decision ∧ Forall (λ c, (c < n)%nat) decision)
          (prunable_layers 0 (state_dict (server_net strategy))) [[5%nat]].
Proof.
  apply (prune_decision_in_range_and_distinct strategy global
           [client_A; client_B; client_C] [[5%nat]]).
  vm_compute; reflexivity.
Defined.

Lemma aggregate_fit_returns_stored_parameters_witness :
  Some global = Some (parameters_to_ndarrays global) ∧
  central_parameters strategy = Some global.
Proof.
  pose proof (aggregate_fit_returns_stored_parameters (init None None) 1 global [0; 1; 2]%nat
                1 [client_A; client_B; client_C] [] strategy [missing_fn_warning]
                (Some global) ∅) as Hthm.
  simpl in Hthm.
  destruct Hthm as (H1 & H2 & _); [reflexivity | vm_compute; reflexivity |].
  split; [exact H1 | exact H2].
Defined.

Lemma aggregation_is_order_independent_witness :
  compute_server_prune_ids strategy global [client_A; client_B; client_C]
  = compute_server_prune_ids strategy global [client_B; client_A; client_C].
Proof.
  apply (aggregation_is_order_independent strategy global
           [client_A; client_B; client_C] [client_B; client_A; client_C]).
  apply perm_swap.
Defined.

(** C4.  A client lists channels 99 and -1 for a layer of eight channels;
    the call returns normally, with the decision it gives without them. *)
Lemma out_of_range_index_is_not_rejected :
  (metrics client_out_of_range.2 !! "prune_indices"%string)
    ≫= (λ proposal : gmap string (list Z), proposal !! "conv1.out"%string) = Some [5; 99; -1] ∧
  get_num_channels global 0 = Ok 8%nat ∧
  in_range 8 99 = false ∧
  compute_server_prune_ids strategy global [client_A; client_B; client_out_of_range]
  = Ok [[5%nat]] ∧
  aggregate_fit strategy 1 [client_A; client_B; client_out_of_range] []
  = Ok (strategy, [missing_fn_warning], (Some global, ∅)).
Proof. repeat split; vm_compute; reflexivity. Qed.

(** C5.  One client of three reports no proposal, or no entry for the
    layer: the call raises and the round has no result. *)
Lemma missing_proposal_aborts_round :
  aggregate_fit strategy 1 [client_A; client_no_metric; client_C] []
  = Raise (KeyError "prune_indices") ∧
  aggregate_fit strategy 1 [client_A; client_no_layer; client_C] []
  = Raise (KeyError "conv1.out").
Proof. split; vm_compute; reflexivity. Qed.

Lemma missing_proposal_raises_witness :
  ∃ e, aggregate_fit strategy 1 [client_A; client_no_metric; client_C] [] = Raise e.
Proof.
  apply (missing_proposal_raises strategy 1 [client_A; client_no_metric; client_C] []).
  - reflexivity.
  - left. exists client_no_metric. split; [right; left | reflexivity].
Defined.

(** C9.  No aggregation function is supplied and the first round has no
    results: over the two rounds the warning is never logged. *)
Lemma no_warning_when_first_round_is_empty :
  fit_metrics_aggregation_fn (init None None) = None ∧
  fit_rounds (init None None) 1 [empty_round; full_round]
  = Ok (strategy, [], [(None, ∅); (Some global, ∅)]).
Proof. split; vm_compute; reflexivity. Qed.

End ScenarioFacts.

(** * Further properties of the code *)

(** ** Tensor names and proposal keys *)

Lemma string_app_cons (c : ascii) (a b : string) :
  String c a +:+ b = String c (a +:+ b).
Proof. reflexivity. Qed.

Lemma string_app_nil (b : string) : EmptyString +:+ b = b.
Proof. reflexivity. Qed.

Lemma string_length_app (a b : string) :
  String.length (a +:+ b) = (String.length a + String.length b)%nat.
Proof.
  induction a as [|c a IH]; [done|].
  rewrite string_app_cons. simpl. by rewrite IH.
Qed.

Lemma substring_prefix (a b : string) :
  String.substring 0 (String.length a) (a +:+ b) = a.
Proof.
  induction a as [|c a IH].
  - rewrite string_app_nil. by destruct b.
  - rewrite string_app_cons. simpl. by rewrite IH.
Qed.

Lemma string_app_assoc (a b c : string) : (a +:+ b) +:+ c = a +:+ (b +:+ c).
Proof.
  induction a as [|x a IH]; [done|].
  rewrite !string_app_cons. by rewrite IH.
Qed.

Lemma split_dot_nonempty (s : string) : split_dot s ≠ [].
Proof.
  destruct s as [|c s]; simpl; [done|].
  destruct (Ascii.eqb c "."); [done|]. destruct (split_dot s); done.
Qed.

Lemma split_dot_no_dot (s : string) : has_dot s = false → split_dot s = [s].
Proof.
  induction s as [|c s IH]; simpl; [done|].
  intros Hd. apply orb_false_elim in Hd as [Hc Hs]. rewrite Hc, IH; done.
Qed.

Lemma split_dot_length (s : string) :
  (2 ≤ length (split_dot s))%nat ↔ has_dot s = true.
Proof.
  induction s as [|c s IH]; simpl.
  - split; [lia | done].
  - pose proof (split_dot_nonempty s) as Hne.
    destruct (Ascii.eqb c "."); simpl.
    + split; [done|]. intros _. destruct (split_dot s); [done | simpl; lia].
    + rewrite <- IH. destruct (split_dot s); [done | simpl; lia].
Qed.

(** The pieces of [a.b], for [b] without a dot, are the pieces of [a] and
    then [b]. *)
Lemma split_dot_snoc (a b : string) :
  has_dot b = false → split_dot (a +:+ "." +:+ b) = split_dot a ++ [b].
Proof.
  intros Hb. induction a as [|c a IH].
  - rewrite string_app_nil, string_app_cons, string_app_nil. simpl.
    by rewrite split_dot_no_dot.
  - rewrite string_app_cons. simpl. rewrite IH. destruct (Ascii.eqb c "."); [done|].
    pose proof (split_dot_nonempty a). destruct (split_dot a); done.
Qed.

Lemma list_getitem_neg_last {A} (l : list A) (x : A) :
  list_getitem_neg (l ++ [x]) 1 = Ok x.
Proof.
  unfold list_getitem_neg, list_getitem. rewrite length_app. simpl.
  rewrite decide_True by lia.
  replace (length l + 1 - 1)%nat with (length l) by lia.
  by rewrite list_lookup_middle.
Qed.

Lemma list_getitem_neg_before_last {A} (l : list A) (y x : A) :
  list_getitem_neg ((l ++ [y]) ++ [x]) 2 = Ok y.
Proof.
  unfold list_getitem_neg, list_getitem. rewrite !length_app. simpl.
  rewrite decide_True by lia.
  replace (length l + 1 + 1 - 2)%nat with (length l) by lia.
  rewrite <- app_assoc. simpl. by rewrite list_lookup_middle.
Qed.

Lemma slice_to_neg_suffix (a b : string) :
  b ≠ EmptyString → slice_to_neg (a +:+ b) (String.length b) = a.
Proof.
  intros Hb. unfold slice_to_neg.
  rewrite decide_False by (by destruct b).
  rewrite string_length_app.
  replace (String.length a + String.length b - String.length b)%nat
    with (String.length a) by lia.
  apply substring_prefix.
Qed.

Lemma proposal_key_split (a b name : string) (pieces : list string) :
  has_dot b = false → b ≠ EmptyString →
  split_dot a = pieces ++ [name] →
  proposal_key (a +:+ "." +:+ b) =
    if re_match_conv name then Ok (Some (a +:+ ".out")) else Ok None.
Proof.
  intros Hb Hne Ha. unfold proposal_key.
  rewrite split_dot_snoc, Ha by done.
  rewrite list_getitem_neg_last, list_getitem_neg_before_last. simpl.
  replace (a +:+ "." +:+ b) with ((a +:+ ".") +:+ b) by apply string_app_assoc.
  rewrite slice_to_neg_suffix by done.
  by rewrite string_app_assoc.
Qed.

(** X1.  For a tensor named [name.b] or [pre.name.b], where [name] and [b]
    have no dot and [b] is not empty, the loop treats the tensor as
    prunable exactly when [name] matches [conv[1-2]+], and then looks the
    proposals up under the name with [b] replaced by [out]. *)
Theorem proposal_key_of_dotted_name (name b : string) :
  has_dot name = false → has_dot b = false → b ≠ EmptyString →
  proposal_key (name +:+ "." +:+ b)
  = (if re_match_conv name then Ok (Some (name +:+ ".out")) else Ok None) ∧
  ∀ pre, proposal_key ((pre +:+ "." +:+ name) +:+ "." +:+ b)
         = if re_match_conv name then Ok (Some ((pre +:+ "." +:+ name) +:+ ".out"))
           else Ok None.
Proof.
  intros Hname Hb Hne. split.
  - apply (proposal_key_split _ _ _ []); [done..|]. by apply split_dot_no_dot.
  - intros pre. apply (proposal_key_split _ _ _ (split_dot pre)); [done..|].
    by apply split_dot_snoc.
Qed.

(** X2.  A tensor name without a dot makes the loop raise [IndexError]
    (from [key_list[-2]]); a name with a dot never raises. *)
Theorem proposal_key_raises_iff_no_dot (key : string) :
  (has_dot key = false → proposal_key key = Raise IndexError) ∧
  (has_dot key = true → ∃ o, proposal_key key = Ok o).
Proof.
  pose proof (split_dot_length key) as Hlen.
  pose proof (split_dot_nonempty key) as Hne.
  unfold proposal_key.
  destruct (split_dot key) as [|x l _] using rev_ind; [done|].
  rewrite list_getitem_neg_last. simpl.
  destruct l as [|y l _] using rev_ind.
  - simpl in Hlen. split; intros Hd; [done|]. apply Hlen in Hd. lia.
  - rewrite list_getitem_neg_before_last. simpl. split; intros Hd.
    + rewrite !length_app in Hlen. simpl in Hlen.
      assert (has_dot key = true) by (apply Hlen; lia). congruence.
    + destruct (re_match_conv y); eauto.
Qed.

(** ** The decision of a layer in closed form *)






(** ** Bounds on a tally *)

Lemma tally_sum_cons key c client (w : Z) (rest : list (gmap string (list Z) * Z)) :
  tally_sum key c ((client, w) :: rest) = vote key c client w + tally_sum key c rest.
Proof. reflexivity. Qed.

Lemma np_sum_cons (x : Z) (l : list Z) : np_sum (x :: l) = x + np_sum l.
Proof. reflexivity. Qed.

Lemma vote_cases key c client (w : Z) :
  vote key c client w = w ∧ (∃ ids, client !! key = Some ids ∧ Z.of_nat c ∈ ids) ∨
  vote key c client w = 0 ∧ (∀ ids, client !! key = Some ids → Z.of_nat c ∉ ids).
Proof.
  unfold vote, py_in. destruct (client !! key) as [ids|]; [|right; done].
  case_bool_decide; [left; eauto | right]. split; [done|]. by intros ? [= <-].
Qed.

Lemma tally_sum_bounds key c (clients : list (gmap string (list Z) * Z)) :
  Forall (λ p, 0 ≤ p.2) clients →
  0 ≤ tally_sum key c clients ≤ np_sum (clients.*2).
Proof.
  induction 1 as [|[client w] rest Hw _ IH]; [done|].
  rewrite tally_sum_cons, fmap_cons, np_sum_cons. simpl in *.
  destruct (vote_cases key c client w) as [[-> _]|[-> _]]; lia.
Qed.

Lemma snd_zip_same_length {A B} (l : list A) (k : list B) :
  length k = length l → (zip l k).*2 = k.
Proof. intros Hlen. apply snd_zip. lia. Qed.

Lemma Forall_snd_zip {A} (P : Z → Prop) (l : list A) (k : list Z) :
  Forall P k → Forall (λ p : A * Z, P p.2) (zip l k).
Proof.
  intros Hk. revert l. induction Hk as [|x k Hx _ IH]; intros [|a l]; simpl; constructor; auto.
Qed.







(** ** What a layer's decision does at the edges *)

(** X3.  With non-negative example counts, the tally the loops compute
    for a channel lies between 0 and the sum of all example counts. *)
Theorem tally_between_zero_and_total (key : string) (c : nat)
    (cm : list (gmap string (list Z))) (ne : list Z) (t : Z) :
  length ne = length cm →
  Forall (λ w, 0 ≤ w) ne →
  count_clients key c ne 0 cm 0 = Ok t →
  0 ≤ t ≤ np_sum ne.
Proof.
  intros Hlen Hne Hrun. rewrite count_clients_sum in Hrun by (simpl; lia).
  destruct (all_have_key key cm); [|done]. injection Hrun as <-.
  rewrite drop_0, Z.add_0_l.
  pose proof (tally_sum_bounds key c (zip cm ne) (Forall_snd_zip _ _ _ Hne)) as Hb.
  by rewrite snd_zip_same_length in Hb.
Qed.





Lemma count_clients_same_sets key c (ne : list Z)
    (cm cm' : list (gmap string (list Z))) :
  Forall2 (λ client client',
             option_Forall2 (λ l l' : list Z, ∀ x, x ∈ l ↔ x ∈ l')
                            (client !! key) (client' !! key)) cm cm' →
  ∀ idx acc, count_clients key c ne idx cm acc = count_clients key c ne idx cm' acc.
Proof.
  induction 1 as [|client client' rest rest' Hopt _ IH]; intros idx acc; simpl; [done|].
  unfold dict_getitem. destruct Hopt as [l l' Hl|]; simpl; [|done].
  unfold py_in. rewrite (bool_decide_ext _ _ (Hl (Z.of_nat c))).
  case_bool_decide; [|apply IH].
  destruct (list_getitem ne idx); simpl; [apply IH | done].
Qed.

(** X8.  A layer's decision depends on the proposals only through the set
    of indices each client lists under the layer's key: repeated indices,
    the order inside a list, and the entries of other keys change nothing. *)
Theorem decision_depends_on_listed_sets (f : Q) (T : Z) (key : string) (n : nat)
    (cm cm' : list (gmap string (list Z))) (ne : list Z) :
  Forall2 (λ client client',
             option_Forall2 (λ l l' : list Z, ∀ x, x ∈ l ↔ x ∈ l')
                            (client !! key) (client' !! key)) cm cm' →
  layer_decision f T key n cm ne = layer_decision f T key n cm' ne.
Proof.
  intros Hsame. unfold layer_decision.
  assert (∀ channels cards,
            count_channels key ne cm channels cards
            = count_channels key ne cm' channels cards) as ->; [|done].
  induction channels as [|c rest IH]; intros cards; simpl; [done|].
  rewrite (count_clients_same_sets key c ne cm cm' Hsame).
  destruct (count_clients key c ne 0 cm' 0); simpl; [apply IH | done].
Qed.


(** ** The list of decisions *)

Lemma proposal_key_Ok (key : string) (o : option string) :
  proposal_key key = Ok o → has_dot key = true.
Proof.
  pose proof (split_dot_length key) as Hlen.
  unfold proposal_key.
  destruct (split_dot key) as [|x l _] using rev_ind; [done|].
  rewrite list_getitem_neg_last. simpl.
  destruct l as [|y l _] using rev_ind; [done|].
  intros _. apply Hlen. rewrite !length_app. simpl. lia.
Qed.

(** ** The loop with NumPy's arithmetic *)

Lemma wrap_int64_in_range (z : Z) : Machine.int64 z → Machine.wrap_int64 z = z.
Proof.
  unfold Machine.int64, Machine.wrap_int64. intros Hz.
  rewrite Z.mod_small by lia. lia.
Qed.

Lemma wrap_int64_is_int64 (z : Z) : Machine.int64 (Machine.wrap_int64 z).
Proof.
  unfold Machine.int64, Machine.wrap_int64.
  pose proof (Z.mod_pos_bound (z + 2 ^ 63) (2 ^ 64)). lia.
Qed.

Lemma machine_np_sum_Permutation (l1 l2 : list Z) :
  l1 ≡ₚ l2 → Machine.np_sum l1 = Machine.np_sum l2.
Proof.
  intros Hperm. unfold Machine.np_sum. f_equal.
  by apply (np_sum_Permutation l1 l2).
Qed.

Lemma machine_elem_of_select_channels (f : Q) (T : Z) (cardinalities : list Z) (i : nat) :
  i ∈ Machine.select_channels f T cardinalities ↔
  ∃ x, cardinalities !! i = Some x ∧ Machine.reaches_threshold f T x = true.
Proof.
  unfold Machine.select_channels, enumerate. rewrite list_elem_of_omap. split.
  - intros ([j x] & Hin & Hsel).
    apply elem_of_lookup_imap in Hin as (j' & x' & [= -> ->] & Hl).
    destruct (Machine.reaches_threshold f T x') eqn:Hr; [|discriminate].
    injection Hsel as ->. eauto.
  - intros (x & Hl & Hr). exists (i, x). split.
    + apply (elem_of_lookup_imap_2 pair). exact Hl.
    + by rewrite Hr.
Qed.

Lemma machine_select_channels_offset (f : Q) (T : Z) (cardinalities : list Z) : ∀ k,
  let l := omap (λ '(channel_idx, x),
                   if Machine.reaches_threshold f T x then Some channel_idx else None)
                (imap (λ j x, ((k + j)%nat, x)) cardinalities) in
  StronglySorted lt l ∧ Forall (λ i, (k ≤ i)%nat) l.
Proof.
  induction cardinalities as [|x rest IH]; intros k; simpl.
  - split; constructor.
  - rewrite (imap_ext _ (λ j y, ((S k + j)%nat, y))) by (intros; simpl; f_equal; lia).
    destruct (IH (S k)) as [Hs Hge].
    assert (Forall (λ i, (k < i)%nat)
              (omap (λ '(channel_idx, x),
                       if Machine.reaches_threshold f T x then Some channel_idx else None)
                    (imap (λ j y, ((S k + j)%nat, y)) rest))) as Hlt.
    { eapply Forall_impl; [exact Hge|]. simpl. lia. }
    destruct (Machine.reaches_threshold f T x).
    + split; [constructor; [exact Hs|]|constructor; [lia|]];
        (eapply Forall_impl; [exact Hlt|]; simpl; lia).
    + split; [done|]. eapply Forall_impl; [exact Hlt|]. simpl. lia.
Qed.

Lemma machine_select_channels_sorted (f : Q) (T : Z) (cardinalities : list Z) :
  StronglySorted lt (Machine.select_channels f T cardinalities).
Proof. apply (machine_select_channels_offset f T cardinalities 0). Qed.

Lemma machine_layer_decision_inv (f : Q) (T : Z) key n cm ne decision :
  Machine.layer_decision f T key n cm ne = Ok decision →
  StronglySorted lt decision ∧
  ∀ c, (c ∈ decision → (c < n)%nat) ∧
       ((c < n)%nat →
        ∃ t, count_clients key c ne 0 cm 0 = Ok t ∧
             (c ∈ decision ↔ Machine.reaches_threshold f T t = true)).
Proof.
  unfold Machine.layer_decision. intros Hrun. inv_bind Hrun. injection Hrun as <-.
  apply count_channels_lookup in Ha as (Hlen & _ & Hnew).
  rewrite length_seq in Hlen. simpl in Hlen.
  split; [apply machine_select_channels_sorted|].
  intros c. split.
  - rewrite machine_elem_of_select_channels. intros (x & Hx & _).
    apply lookup_lt_Some in Hx. lia.
  - intros Hc. destruct (Hnew c c) as (t & Ht & Hout).
    { by rewrite lookup_seq_lt. }
    simpl in Hout. exists t. split; [done|].
    rewrite machine_elem_of_select_channels. split.
    + intros (x & Hx & Hr). congruence.
    + eauto.
Qed.

Lemma machine_layer_decision_ready (f : Q) (T : Z) key (n : nat)
    (cm : list (gmap string (list Z))) (ne : list Z) (d : list nat) :
  length ne = length cm →
  Machine.layer_decision f T key n cm ne = Ok d →
  n = 0%nat ∨ all_have_key key cm = true.
Proof.
  intros Hlen Hd. destruct (all_have_key key cm) eqn:Hall; [by right|].
  destruct n as [|n]; [by left|]. unfold Machine.layer_decision in Hd.
  by rewrite count_channels_missing in Hd.
Qed.

Section MachineLoop.
Context `{Collaborators}.

Lemma machine_layer_loop_inv self sp cm ne T : ∀ model_dict index acc out,
  Machine.layer_loop self sp cm ne T index model_dict acc = Ok out →
  Forall (λ key, has_dot key = true) model_dict ∧
  ∃ ds, out = acc ++ ds ∧
        Forall2 (Machine.decided self sp cm ne T) (prunable_layers index model_dict) ds.
Proof.
  induction model_dict as [|key rest IH]; intros index acc out Hrun; simpl in Hrun.
  - injection Hrun as <-. split; [constructor|].
    exists []. split; [by rewrite app_nil_r | constructor].
  - inv_bind Hrun. unfold Machine.layer_body in Ha. inv_bind Ha. simpl. rewrite Ha0.
    pose proof (proposal_key_Ok _ _ Ha0) as Hdot.
    destruct a0 as [k|].
    + inv_bind Ha. inv_bind Ha. injection Ha as <-.
      apply IH in Hrun as (Hdots & ds & -> & Hds).
      split; [by constructor|].
      exists (a1 :: ds). split; [by rewrite <- app_assoc|].
      constructor; [|done]. exists a0. done.
    + injection Ha as <-. apply IH in Hrun as (Hdots & Hds).
      split; [by constructor | done].
Qed.

Lemma machine_layer_loop_ext self sp cm ne cm' ne' T :
  (∀ key n, Machine.layer_decision (aggregate_frac self) T key n cm ne
            = Machine.layer_decision (aggregate_frac self) T key n cm' ne') →
  ∀ model_dict index acc,
    Machine.layer_loop self sp cm ne T index model_dict acc
    = Machine.layer_loop self sp cm' ne' T index model_dict acc.
Proof.
  intros Hext. induction model_dict as [|key rest IH]; intros index acc; simpl; [done|].
  unfold Machine.layer_body.
  destruct (proposal_key key) as [[k|]|e]; simpl; [| by rewrite IH | done].
  destruct (get_num_channels sp index) as [n|e]; simpl; [|done].
  rewrite Hext. destruct (Machine.layer_decision _ _ _ _ cm' ne') as [d|e]; simpl; [|done].
  apply IH.
Qed.

Lemma machine_compute_inv self sp (results : list (ClientProxy * FitRes)) ids :
  Machine.compute_server_prune_ids self sp results = Ok ids →
  forallb has_metric results = true ∧
  Forall (λ key, has_dot key = true) (state_dict (server_net self)) ∧
  Forall2 (Machine.decided self sp ((λ r, proposal_of r.2) <$> results)
             (get_num_examples results) (Machine.np_sum (get_num_examples results)))
          (prunable_layers 0 (state_dict (server_net self))) ids.
Proof.
  unfold Machine.compute_server_prune_ids. rewrite get_client_metrics_spec.
  destruct (forallb has_metric results); simpl; [|done].
  intros Hrun. split; [done|].
  apply machine_layer_loop_inv in Hrun as (Hdots & ds & -> & Hds). done.
Qed.

Lemma machine_compute_Permutation self sp
    (results results' : list (ClientProxy * FitRes)) :
  results ≡ₚ results' →
  Machine.compute_server_prune_ids self sp results
  = Machine.compute_server_prune_ids self sp results'.
Proof.
  intros Hperm. unfold Machine.compute_server_prune_ids.
  rewrite !get_client_metrics_spec, <- (forallb_Permutation has_metric _ _ Hperm).
  destruct (forallb has_metric results); simpl; [|done].
  assert (Machine.np_sum (get_num_examples results)
          = Machine.np_sum (get_num_examples results')) as <-.
  { apply machine_np_sum_Permutation. unfold get_num_examples. by apply fmap_Permutation. }
  apply machine_layer_loop_ext. intros key n. unfold Machine.layer_decision.
  by rewrite (count_channels_Permutation _ _ Hperm).
Qed.

Lemma np_sum_get_num_examples (results : list (ClientProxy * FitRes)) :
  Machine.np_sum (get_num_examples results) = Machine.wrap_int64 (total_weight results).
Proof. unfold Machine.np_sum. f_equal. apply (np_sum_num_examples results). Qed.

End MachineLoop.

(** ** The claims on the arithmetic *)

Section MachineClaims.
Context `{Collaborators}.

(** C2, as the code has it.  For 64-bit example counts, in a run that
    returns, every channel [c] below the channel count of a prunable layer
    has a tally, and [c] is in the layer's decision exactly when the
    tally, converted to binary64, is at least the binary64 product of
    [aggregate_frac] and the total of [np.sum] converted to binary64: a
    tally that compares equal to the product is in, one that compares
    below it is out. *)
Theorem threshold_is_inclusive_in_binary64 (self : Struct_Prune_Aggregation)
    (server_parameters : list NDArray) (results : list (ClientProxy * FitRes))
    (ids : list (list nat)) :
  Forall (λ r, Machine.int64 (num_examples r.2)) results →
  Machine.compute_server_prune_ids self server_parameters results = Ok ids →
  Forall2 (λ '(index, key) decision,
             ∃ n, get_num_channels server_parameters index = Ok n ∧
                  ∀ c, (c < n)%nat →
                       ∃ tally,
                         count_clients key c (get_num_examples results) 0
                                       ((λ r, proposal_of r.2) <$> results) 0 = Ok tally ∧
                         let threshold :=
                           Machine.threshold (aggregate_frac self)
                                             (Machine.np_sum (get_num_examples results)) in
                         (c ∈ decision ↔
                          SFleb threshold (Machine.float64_of_Z tally) = true) ∧
                         (SFcompare threshold (Machine.float64_of_Z tally) = Some Eq →
                          c ∈ decision) ∧
                         (SFcompare threshold (Machine.float64_of_Z tally) = Some Gt →
                          c ∉ decision))
          (prunable_layers 0 (state_dict (server_net self))) ids.
Proof.
  intros _ Hrun. apply machine_compute_inv in Hrun as (_ & _ & Hall).
  eapply Forall2_impl; [exact Hall|].
  intros [index key] decision (n & Hn & Hdec). exists n. split; [exact Hn|].
  simpl in Hdec. apply machine_layer_decision_inv in Hdec as [_ Hdec].
  intros c Hc. destruct (Hdec c) as [_ Hiff]. destruct (Hiff Hc) as (t & Ht & Hin).
  exists t. split; [exact Ht|]. unfold Machine.reaches_threshold in Hin.
  split; [exact Hin|]. unfold SFleb in Hin. split.
  - intros Heq. apply Hin. by rewrite Heq.
  - intros Hgt Hc'. apply Hin in Hc'. by rewrite Hgt in Hc'.
Qed.

(** C7, as the code has it.  For 64-bit example counts, in a run that
    returns, the decision of every prunable layer holds the channels
    whose summed weight reaches the threshold taken on the total of
    [np.sum]; that total is the sum of [num_examples] over all results,
    whatever their proposals list, reduced to 64 bits: the sum itself
    when it fits, always a 64-bit value. *)
Theorem denominator_is_the_int64_sum (self : Struct_Prune_Aggregation)
    (server_parameters : list NDArray) (results : list (ClientProxy * FitRes))
    (ids : list (list nat)) :
  Forall (λ r, Machine.int64 (num_examples r.2)) results →
  Machine.compute_server_prune_ids self server_parameters results = Ok ids →
  Forall2 (λ '(index, key) decision,
             ∃ n, get_num_channels server_parameters index = Ok n ∧
                  ∀ c, c ∈ decision ↔
                       (c < n)%nat ∧
                       SFleb (Machine.threshold (aggregate_frac self)
                                (Machine.wrap_int64 (total_weight results)))
                             (Machine.float64_of_Z (tally_sum key c (clients_of results)))
                       = true)
          (prunable_layers 0 (state_dict (server_net self))) ids ∧
  (Machine.int64 (total_weight results) →
   Machine.wrap_int64 (total_weight results) = total_weight results) ∧
  Machine.int64 (Machine.wrap_int64 (total_weight results)).
Proof.
  intros _ Hrun. split; [|split; [apply wrap_int64_in_range | apply wrap_int64_is_int64]].
  apply machine_compute_inv in Hrun as (_ & _ & Hall).
  rewrite np_sum_get_num_examples in Hall.
  eapply Forall2_impl; [exact Hall|].
  intros [index key] decision (n & Hn & Hdec). exists n. split; [exact Hn|].
  simpl in Hdec. apply machine_layer_decision_inv in Hdec as [_ Hdec].
  intros c. destruct (Hdec c) as [Hlt Hiff].
  assert ((c < n)%nat →
          (c ∈ decision ↔
           Machine.reaches_threshold (aggregate_frac self)
             (Machine.wrap_int64 (total_weight results))
             (tally_sum key c (clients_of results)) = true)) as Hsum.
  { intros Hc. destruct (Hiff Hc) as (t & Ht & Ht').
    rewrite count_clients_sum in Ht by apply length_proposals.
    destruct (all_have_key _ _); [|done]. injection Ht as <-.
    by rewrite drop_0, zip_clients, Z.add_0_l in Ht'. }
  split.
  - intros Hin. split; [by apply Hlt|]. by apply (Hsum (Hlt Hin)).
  - intros [Hc Hle]. by apply (Hsum Hc).
Qed.

(** X10.  In a run that returns, the decisions follow the prunable
    tensors of [state_dict()] in their order: the i-th decision is the one
    computed from the key and channel count of the i-th prunable tensor,
    and it is in strictly ascending order. *)
Theorem decisions_follow_the_prunable_tensors (self : Struct_Prune_Aggregation)
    (server_parameters : list NDArray) (results : list (ClientProxy * FitRes))
    (ids : list (list nat)) :
  Machine.compute_server_prune_ids self server_parameters results = Ok ids →
  Forall2 (λ '(index, key) decision,
             ∃ n, get_num_channels server_parameters index = Ok n ∧
                  Machine.layer_decision (aggregate_frac self)
                    (Machine.np_sum (get_num_examples results)) key n
                    ((λ r, proposal_of r.2) <$> results) (get_num_examples results)
                  = Ok decision ∧
                  StronglySorted lt decision)
          (prunable_layers 0 (state_dict (server_net self))) ids.
Proof.
  intros Hrun. apply machine_compute_inv in Hrun as (_ & _ & Hall).
  eapply Forall2_impl; [exact Hall|].
  intros [index key] decision (n & Hn & Hdec). exists n. split; [exact Hn|].
  simpl in Hdec. split; [exact Hdec|].
  by apply machine_layer_decision_inv in Hdec as [Hs _].
Qed.

(** X11.  If the computation of [server_prune_ids] returns, then every
    result carries the ['prune_indices'] metric, every tensor name has a
    dot, and every prunable tensor has an array with a first dimension in
    the stored parameters and, unless that dimension is 0, an entry in
    every client's proposal. *)
Theorem returning_computation_had_every_entry (self : Struct_Prune_Aggregation)
    (server_parameters : list NDArray) (results : list (ClientProxy * FitRes))
    (ids : list (list nat)) :
  Machine.compute_server_prune_ids self server_parameters results = Ok ids →
  forallb has_metric results = true ∧
  Forall (λ key, has_dot key = true) (state_dict (server_net self)) ∧
  Forall (layer_ready server_parameters ((λ r, proposal_of r.2) <$> results))
         (prunable_layers 0 (state_dict (server_net self))).
Proof.
  intros Hrun. apply machine_compute_inv in Hrun as (Hmet & Hdots & Hall).
  split; [done|]. split; [done|].
  induction Hall as [|layer d layers ds (n & Hn & Hd) _ IH]; constructor; [|done].
  exists n. split; [done|].
  by eapply machine_layer_decision_ready; [apply length_proposals | exact Hd].
Qed.

End MachineClaims.

(** ** Calls and rounds *)

Section RoundFacts.
Context `{Collaborators}.

Lemma aggregate_fit_Ok_cases self server_round results failures self' log out m :
  aggregate_fit self server_round results failures = Ok (self', log, (out, m)) →
  (aggregates self results failures = false ∧
   self' = self ∧ log = [] ∧ out = None ∧ m = ∅) ∨
  (aggregates self results failures = true ∧
   ∃ p ids net,
     central_parameters self = Some p ∧
     compute_server_prune_ids self (parameters_to_ndarrays p) results = Ok ids ∧
     prune_model_with_indices (server_net self) ids = Ok net ∧
     self' = set_server_net self net ∧
     out = Some (parameters_to_ndarrays p) ∧
     (log, m) = match fit_metrics_aggregation_fn self with
                | Some fn =>
                    ([], fn ((λ '(_, res), (num_examples res, metrics res)) <$> results))
                | None =>
                    (if bool_decide (server_round = 1) then [missing_fn_warning] else [], ∅)
                end).
Proof.
  intros Hrun. destruct (aggregates self results failures) eqn:Hagg.
  - right. split; [done|].
    unfold aggregates in Hagg. apply andb_prop in Hagg as [Hres Hfail].
    unfold aggregate_fit in Hrun. rewrite Hres in Hrun. simpl in Hrun.
    destruct (negb (accept_failures self) && truthy failures) eqn:Hrej.
    { apply andb_prop in Hrej as [Hacc Hf]. rewrite Hf in Hfail.
      destruct (accept_failures self); done. }
    destruct (central_parameters self) as [p|]; [|done]. simpl in Hrun.
    inv_bind Hrun. inv_bind Hrun. simpl in Hrun.
    exists p, a, a0. repeat (split; [done|]).
    destruct (fit_metrics_aggregation_fn self) as [fn|].
    + by injection Hrun as <- <- <- <-.
    + case_bool_decide; by injection Hrun as <- <- <- <-.
  - left. rewrite aggregate_fit_early in Hrun by done.
    by injection Hrun as <- <- <- <-.
Qed.

Lemma aggregates_same_policy (self self' : Struct_Prune_Aggregation)
    (results : list (ClientProxy * FitRes)) (failures : list Failure) :
  accept_failures self' = accept_failures self →
  aggregates self' results failures = aggregates self results failures.
Proof. unfold aggregates. by intros ->. Qed.

(** X14.  A call of [aggregate_fit] that returns leaves every attribute of
    the strategy but [server_net] as it was, and [server_net] too when the
    call takes an early return. *)
Theorem aggregate_fit_changes_only_the_network (self : Struct_Prune_Aggregation)
    (server_round : Z) (results : list (ClientProxy * FitRes)) (failures : list Failure)
    (self' : Struct_Prune_Aggregation) (log : list LogRecord)
    (out : option (list NDArray)) (m : gmap string Scalar) :
  aggregate_fit self server_round results failures = Ok (self', log, (out, m)) →
  set_server_net self' (server_net self) = self ∧
  (aggregates self results failures = false → self' = self).
Proof.
  intros Hrun. apply aggregate_fit_Ok_cases in Hrun
    as [(Hagg & -> & _) | (Hagg & p & ids & net & _ & _ & _ & -> & _)].
  - split; [by destruct self | done].
  - split; [by destruct self | congruence].
Qed.

Lemma fit_rounds_cons self server_round r rest :
  fit_rounds self server_round (r :: rest) =
    '(self1, log1, out) ← aggregate_fit (set_central_parameters self (round_parameters r))
                                         server_round (round_results r) (round_failures r);
    '(self2, log2, outs) ← fit_rounds self1 (server_round + 1) rest;
    Ok (self2, log1 ++ log2, out :: outs).
Proof.
  simpl. rewrite <- (configure_fit_state self server_round (round_parameters r)
                       (round_client_manager r)).
  by destruct (configure_fit _ _ _ _).
Qed.

(** X15.  Over a run of rounds that returns, the parameters a round gives
    back are the arrays of the parameters handed to that round's
    [configure_fit], or [None] when the round takes an early return; the
    failure policy, the fraction and the aggregation function stay as they
    were, and the parameters stored at the end are those of the last round. *)
Theorem fit_rounds_return_each_rounds_parameters : ∀ (rounds : list RoundInput)
    (self : Struct_Prune_Aggregation) (server_round : Z)
    (self' : Struct_Prune_Aggregation) (log : list LogRecord)
    (outs : list (option (list NDArray) * gmap string Scalar)),
  fit_rounds self server_round rounds = Ok (self', log, outs) →
  Forall2 (λ r out,
             out.1 = if aggregates self (round_results r) (round_failures r)
                     then Some (parameters_to_ndarrays (round_parameters r))
                     else None) rounds outs ∧
  accept_failures self' = accept_failures self ∧
  aggregate_frac self' = aggregate_frac self ∧
  fit_metrics_aggregation_fn self' = fit_metrics_aggregation_fn self ∧
  central_parameters self' = match last rounds with
                             | Some r => Some (round_parameters r)
                             | None => central_parameters self
                             end.
Proof.
  induction rounds as [|r rest IH]; intros self k self' log outs Hrun.
  - simpl in Hrun. injection Hrun as <- <- <-. repeat split; constructor.
  - rewrite fit_rounds_cons in Hrun.
    inv_bind Hrun. destruct a as [[self1 log1] [out m]].
    inv_bind Hrun. destruct a as [[self2 log2] outs2]. injection Hrun as <- <- <-.
    apply IH in Ha0 as (Houts & Hacc & Hfrac & Hfn & Hcentral).
    set (configured := set_central_parameters self (round_parameters r)) in *.
    assert (accept_failures self1 = accept_failures self ∧
            aggregate_frac self1 = aggregate_frac self ∧
            fit_metrics_aggregation_fn self1 = fit_metrics_aggregation_fn self ∧
            central_parameters self1 = Some (round_parameters r) ∧
            out = if aggregates self (round_results r) (round_failures r)
                  then Some (parameters_to_ndarrays (round_parameters r)) else None)
      as (Hacc1 & Hfrac1 & Hfn1 & Hcentral1 & Hout).
    { rewrite <- (aggregates_same_policy self configured) by done.
      apply aggregate_fit_Ok_cases in Ha
        as [(-> & -> & _ & -> & _) | (-> & p & ids & net & Hp & _ & _ & -> & -> & _)].
      - done.
      - simpl in Hp. by injection Hp as <-. }
    split; [|split; [congruence|split; [congruence|split; [congruence|]]]].
    + constructor; [done|].
      eapply Forall2_impl; [exact Houts|]. intros r' out' ->. simpl.
      by rewrite (aggregates_same_policy self self1).
    + rewrite Hcentral. destruct rest as [|r' rest'] using rev_ind;
        [done | by rewrite app_comm_cons, !last_snoc].
Qed.

(** X16.  With an aggregation function supplied, no round of a run logs
    the warning, and the metrics of a round are the function applied to
    the [(num_examples, metrics)] pairs of its results, in their order, or
    empty when the round takes an early return. *)
Theorem fit_rounds_with_aggregation_fn : ∀ (rounds : list RoundInput)
    (self : Struct_Prune_Aggregation) (fn : MetricsAggregationFn) (server_round : Z)
    (self' : Struct_Prune_Aggregation) (log : list LogRecord)
    (outs : list (option (list NDArray) * gmap string Scalar)),
  fit_metrics_aggregation_fn self = Some fn →
  fit_rounds self server_round rounds = Ok (self', log, outs) →
  log = [] ∧
  Forall2 (λ r out,
             out.2 = if aggregates self (round_results r) (round_failures r)
                     then fn ((λ '(_, res), (num_examples res, metrics res))
                                <$> round_results r)
                     else ∅) rounds outs.
Proof.
  induction rounds as [|r rest IH]; intros self fn k self' log outs Hfn Hrun.
  - simpl in Hrun. injection Hrun as <- <- <-. split; constructor.
  - rewrite fit_rounds_cons in Hrun.
    inv_bind Hrun. destruct a as [[self1 log1] [out m]].
    inv_bind Hrun. destruct a as [[self2 log2] outs2]. injection Hrun as <- <- <-.
    set (configured := set_central_parameters self (round_parameters r)) in *.
    assert (accept_failures self1 = accept_failures self ∧
            fit_metrics_aggregation_fn self1 = Some fn ∧
            log1 = [] ∧
            m = if aggregates self (round_results r) (round_failures r)
                then fn ((λ '(_, res), (num_examples res, metrics res)) <$> round_results r)
                else ∅)
      as (Hacc1 & Hfn1 & -> & Hm).
    { rewrite <- (aggregates_same_policy self configured) by done.
      apply aggregate_fit_Ok_cases in Ha
        as [(-> & -> & -> & _ & ->) | (-> & p & ids & net & _ & _ & _ & -> & _ & Hlm)].
      - done.
      - simpl in Hlm. rewrite Hfn in Hlm. injection Hlm as -> ->. done. }
    apply (IH _ fn) in Ha0 as [-> Houts]; [|done].
    split; [done|]. constructor; [done|].
    eapply Forall2_impl; [exact Houts|]. intros r' out' ->. simpl.
    by rewrite (aggregates_same_policy self self1).
Qed.

End RoundFacts.

(** ** Order of the results, for the whole call *)

Section WholeCallOrder.
Context `{Collaborators}.

Lemma truthy_Permutation {A} (l l' : list A) : l ≡ₚ l' → truthy l = truthy l'.
Proof.
  intros Hperm. destruct l as [|x l], l' as [|y l']; try done.
  - by apply Permutation_nil_cons in Hperm.
  - symmetry in Hperm. by apply Permutation_nil_cons in Hperm.
Qed.

(** X17.  When no aggregation function is supplied and a call of
    [aggregate_fit] returns, the call on any permutation of its results
    returns the same: the same strategy afterwards, log and pair. *)
Theorem returning_call_is_order_independent_without_fn (self : Struct_Prune_Aggregation)
    (server_round : Z) (results results' : list (ClientProxy * FitRes))
    (failures : list Failure)
    (outcome : Struct_Prune_Aggregation * list LogRecord
               * (option (list NDArray) * gmap string Scalar)) :
  fit_metrics_aggregation_fn self = None →
  results ≡ₚ results' →
  Machine.aggregate_fit self server_round results failures = Ok outcome →
  Machine.aggregate_fit self server_round results' failures = Ok outcome.
Proof.
  intros Hfn Hperm Hrun. rewrite <- Hrun. unfold Machine.aggregate_fit.
  rewrite (truthy_Permutation _ _ Hperm).
  destruct (negb (truthy results')); [done|].
  destruct (negb (accept_failures self) && truthy failures); [done|].
  destruct (central_parameters self) as [p|]; simpl; [|done].
  rewrite (machine_compute_Permutation self _ _ _ Hperm).
  destruct (Machine.compute_server_prune_ids self (parameters_to_ndarrays p) results');
    simpl; [|done].
  destruct (prune_model_with_indices (server_net self) a); simpl; [|done].
  by rewrite Hfn.
Qed.

End WholeCallOrder.

(** * The instance, continued *)

Module MoreFacts.
Import Scenario Scenario2.
#[local] Existing Instance world.

Lemma proposal_key_of_dotted_name_witness :
  proposal_key "layer1.0.conv1.weight" = Ok (Some "layer1.0.conv1.out"%string).
Proof.
  exact (proj2 (proposal_key_of_dotted_name "conv1" "weight" eq_refl eq_refl
                  ltac:(discriminate)) "layer1.0"%string).
Defined.

Lemma proposal_key_raises_iff_no_dot_witness : proposal_key "weight" = Raise IndexError.
Proof. apply (proj1 (proposal_key_raises_iff_no_dot "weight")). reflexivity. Defined.

Lemma tally_between_zero_and_total_witness : 0 ≤ 30 ≤ np_sum [10; 20; 70].
Proof.
  apply (tally_between_zero_and_total "conv1.out" 6 tie_proposals [10; 20; 70] 30).
  - reflexivity.
  - repeat (constructor; [lia|]). constructor.
  - vm_compute; reflexivity.
Defined.





Lemma decision_depends_on_listed_sets_witness :
  layer_decision (3 # 10) 100 "conv1.out" 8 tie_proposals [10; 20; 70]
  = layer_decision (3 # 10) 100 "conv1.out" 8 noisy_tie_proposals [10; 20; 70].
Proof.
  apply (decision_depends_on_listed_sets (3 # 10) 100 "conv1.out" 8
           tie_proposals noisy_tie_proposals [10; 20; 70]).
  constructor; [|constructor; [|constructor; [|constructor]]].
  - change (option_Forall2 (λ l l' : list Z, ∀ x, x ∈ l ↔ x ∈ l')
                           (Some [5; 6]) (Some [6; 5; 6])).
    constructor. intros x. rewrite !elem_of_cons, !elem_of_nil. tauto.
  - change (option_Forall2 (λ l l' : list Z, ∀ x, x ∈ l ↔ x ∈ l')
                           (Some [6]) (Some [6; 6])).
    constructor. intros x. rewrite !elem_of_cons, !elem_of_nil. tauto.
  - change (option_Forall2 (λ l l' : list Z, ∀ x, x ∈ l ↔ x ∈ l')
                           (Some [5]) (Some [5])).
    constructor. intros x. rewrite !elem_of_cons, !elem_of_nil. tauto.
Defined.


Lemma aggregate_fit_changes_only_the_network_witness :
  set_server_net strategy (server_net strategy) = strategy ∧
  (aggregates strategy [client_A; client_B; client_C] [] = false → strategy = strategy).
Proof.
  apply (aggregate_fit_changes_only_the_network strategy 1 [client_A; client_B; client_C] []
           strategy [missing_fn_warning] (Some global) ∅).
  vm_compute; reflexivity.
Defined.

Lemma fit_rounds_return_each_rounds_parameters_witness :
  Forall2 (λ r (out : option (list NDArray) * gmap string Scalar),
             out.1 = if aggregates (init None None) (round_results r) (round_failures r)
                     then Some (parameters_to_ndarrays (round_parameters r))
                     else None)
          [empty_round; full_round] [(None, ∅); (Some global, ∅)] ∧
  accept_failures strategy = accept_failures (init None None) ∧
  aggregate_frac strategy = aggregate_frac (init None None) ∧
  fit_metrics_aggregation_fn strategy = fit_metrics_aggregation_fn (init None None) ∧
  central_parameters strategy = Some (round_parameters full_round).
Proof.
  apply (fit_rounds_return_each_rounds_parameters [empty_round; full_round]
           (init None None) 1 strategy [] [(None, ∅); (Some global, ∅)]).
  vm_compute; reflexivity.
Defined.

Lemma fit_rounds_with_aggregation_fn_witness :
  @nil LogRecord = [] ∧
  Forall2 (λ r (out : option (list NDArray) * gmap string Scalar),
             out.2 = if aggregates strategy_with_fn (round_results r) (round_failures r)
                     then counts_fn ((λ '(_, res), (num_examples res, metrics res))
                                       <$> round_results r)
                     else ∅)
          [full_round; empty_round]
          [(Some global, counts_fn [(10, metrics client_A.2); (20, metrics client_B.2);
                                    (70, metrics client_C.2)]);
           (None, ∅)].
Proof.
  apply (fit_rounds_with_aggregation_fn [full_round; empty_round] strategy_with_fn
           counts_fn 1 strategy_with_fn).
  - reflexivity.
  - vm_compute; reflexivity.
Defined.

End MoreFacts.

(** * The instance, with NumPy's arithmetic *)

Module MachineFacts.
Import Scenario Scenario3.
#[local] Existing Instance world.

(** C2.  Of 10^18 examples, the only client that lists channel 5 has
    299999999999999999: one less than three tenths of the total.  The
    product and the tally both round to 3e17 in binary64, and the channel
    is in the decision. *)
Lemma tally_below_the_exact_threshold_is_pruned :
  count_clients "conv1.out" 5 (get_num_examples [client_just_below; client_rest]) 0
                ((λ r : nat * FitRes, proposal_of r.2) <$> [client_just_below; client_rest]) 0
  = Ok 299999999999999999 ∧
  Machine.np_sum (get_num_examples [client_just_below; client_rest]) = 10 ^ 18 ∧
  (inject_Z 299999999999999999 < aggregate_frac strategy * inject_Z (10 ^ 18))%Q ∧
  Machine.compute_server_prune_ids strategy global [client_just_below; client_rest]
  = Ok [[5%nat]].
Proof. repeat split; vm_compute; reflexivity. Qed.

Lemma threshold_is_inclusive_in_binary64_witness :
  Forall2 (λ '(index, key) decision,
             ∃ n, get_num_channels global index = Ok n ∧
                  ∀ c, (c < n)%nat →
                       ∃ tally,
                         count_clients key c
                           (get_num_examples [client_tie_1; client_tie_2; client_tie_3]) 0
                           ((λ r : nat * FitRes, proposal_of r.2)
                              <$> [client_tie_1; client_tie_2; client_tie_3]) 0
                         = Ok tally ∧
                         let threshold :=
                           Machine.threshold (aggregate_frac strategy)
                             (Machine.np_sum
                                (get_num_examples [client_tie_1; client_tie_2; client_tie_3])) in
                         (c ∈ decision ↔
                          SFleb threshold (Machine.float64_of_Z tally) = true) ∧
                         (SFcompare threshold (Machine.float64_of_Z tally) = Some Eq →
                          c ∈ decision) ∧
                         (SFcompare threshold (Machine.float64_of_Z tally) = Some Gt →
                          c ∉ decision))
          (prunable_layers 0 (state_dict (server_net strategy))) [[5; 6]%nat].
Proof.
  apply (threshold_is_inclusive_in_binary64 strategy global
           [client_tie_1; client_tie_2; client_tie_3] [[5; 6]%nat]).
  - repeat (constructor; [unfold Machine.int64; simpl; lia|]). constructor.
  - vm_compute; reflexivity.
Defined.

(** C7.  Two clients report 2^62 examples each and list no channel.  The sum
    of the weights is 2^63; the total of [np.sum] is -2^63, the threshold is
    negative, and all eight channels are in the decision. *)
Lemma total_of_the_weights_wraps_around :
  total_weight [client_huge_1; client_huge_2] = 2 ^ 63 ∧
  Machine.int64 (num_examples client_huge_1.2) ∧
  Machine.int64 (num_examples client_huge_2.2) ∧
  Machine.np_sum (get_num_examples [client_huge_1; client_huge_2]) = - 2 ^ 63 ∧
  Machine.compute_server_prune_ids strategy global [client_huge_1; client_huge_2]
  = Ok [seq 0 8].
Proof.
  split; [vm_compute; reflexivity|].
  split; [unfold Machine.int64; simpl; lia|].
  split; [unfold Machine.int64; simpl; lia|].
  split; vm_compute; reflexivity.
Qed.

Lemma denominator_is_the_int64_sum_witness :
  Forall2 (λ '(index, key) decision,
             ∃ n, get_num_channels global index = Ok n ∧
                  ∀ c, c ∈ decision ↔
                       (c < n)%nat ∧
                       SFleb (Machine.threshold (aggregate_frac strategy)
                                (Machine.wrap_int64
                                   (total_weight [client_A; client_B; client_C])))
                             (Machine.float64_of_Z
                                (tally_sum key c (clients_of [client_A; client_B; client_C])))
                       = true)
          (prunable_layers 0 (state_dict (server_net strategy))) [[5%nat]] ∧
  (Machine.int64 (total_weight [client_A; client_B; client_C]) →
   Machine.wrap_int64 (total_weight [client_A; client_B; client_C])
   = total_weight [client_A; client_B; client_C]) ∧
  Machine.int64 (Machine.wrap_int64 (total_weight [client_A; client_B; client_C])).
Proof.
  apply (denominator_is_the_int64_sum strategy global [client_A; client_B; client_C]
           [[5%nat]]).
  - repeat (constructor; [unfold Machine.int64; simpl; lia|]). constructor.
  - vm_compute; reflexivity.
Defined.

Lemma missing_fn_warning_once_iff_first_call_returns_witness :
  fit_rounds_log (init None None) 1 [full_round; bad_round] = [missing_fn_warning] ∧
  fit_rounds_log (init None None) 1 [bad_round; full_round] = [].
Proof.
  split.
  - exact (proj1 (missing_fn_warning_once_iff_first_call_returns (init None None)
                    [full_round; bad_round] eq_refl)).
  - exact (proj1 (missing_fn_warning_once_iff_first_call_returns (init None None)
                    [bad_round; full_round] eq_refl)).
Defined.

Lemma decisions_follow_the_prunable_tensors_witness :
  Forall2 (λ '(index, key) decision,
             ∃ n, get_num_channels global index = Ok n ∧
                  Machine.layer_decision (aggregate_frac strategy)
                    (Machine.np_sum (get_num_examples [client_A; client_B; client_C])) key n
                    ((λ r : nat * FitRes, proposal_of r.2) <$> [client_A; client_B; client_C])
                    (get_num_examples [client_A; client_B; client_C])
                  = Ok decision ∧
                  StronglySorted lt decision)
          (prunable_layers 0 (state_dict (server_net strategy))) [[5%nat]].
Proof.
  apply (decisions_follow_the_prunable_tensors strategy global
           [client_A; client_B; client_C] [[5%nat]]).
  vm_compute; reflexivity.
Defined.

Lemma returning_computation_had_every_entry_witness :
  forallb (has_metric (H := world)) [client_A; client_B; client_C] = true ∧
  Forall (λ key, has_dot key = true) (state_dict (server_net strategy)) ∧
  Forall (layer_ready global
            ((λ r : nat * FitRes, proposal_of r.2) <$> [client_A; client_B; client_C]))
         (prunable_layers 0 (state_dict (server_net strategy))).
Proof.
  apply (returning_computation_had_every_entry strategy global
           [client_A; client_B; client_C] [[5%nat]]).
  vm_compute; reflexivity.
Defined.

Lemma returning_call_is_order_independent_without_fn_witness :
  Machine.aggregate_fit strategy 1 [client_C; client_A; client_B] []
  = Ok (strategy, [missing_fn_warning], (Some global, ∅)).
Proof.
  apply (returning_call_is_order_independent_without_fn strategy 1
           [client_A; client_B; client_C] [client_C; client_A; client_B] []).
  - reflexivity.
  - symmetry. apply (Permutation_cons_append [client_A; client_B] client_C).
  - vm_compute; reflexivity.
Defined.

End MachineFacts.
